(** * Review harvester ([main.py]): paginator, page handler and dispatcher

  A shallow embedding of [collect_all_feedbacks], [handle_page] and
  [sent_data].  The browser, the clock and the Telegram client are
  external: they appear as oracles (what the page shows after [n]
  expansion clicks, what the [k]-th reading of [datetime.now()] is,
  what the [i]-th [send_message] call answers).  Python exceptions are
  values of [exn]; a computation either returns or raises. *)

From Stdlib Require Import ZArith String Ascii Bool Lia PrimFloat List.
Import ListNotations.
Local Open Scope Z_scope.
Local Open Scope list_scope.

(** ** Exceptions and results *)

Inductive exn : Type :=
| NoSuchElementException
| ElementNotInteractableException
| TimeoutException
| StaleElementReferenceException
| WebDriverException          (* any other selenium failure *)
| ValueError
| TypeError
| IndexError
| OverflowError.

Inductive result (A : Type) : Type :=
| Return (a : A)
| Raise (e : exn).
Arguments Return {A} a.
Arguments Raise {A} e.

Definition bind {A B} (c : result A) (k : A -> result B) : result B :=
  match c with
  | Return a => k a
  | Raise e => Raise e
  end.

Notation "x <- c ;; k" := (bind c (fun x => k))
  (at level 61, c at next level, right associativity).

(** ** Dates

    A naive [datetime] is the number of microseconds since
    0001-01-01T00:00:00, the smallest value the type holds. *)

Definition datetime := Z.

Definition us_per_day : Z := 86400 * 1000000.

(** [datetime.max] is 9999-12-31T23:59:59.999999, day 3652059. *)
Definition datetime_max : datetime := 3652059 * us_per_day - 1.

(** [timedelta(days=n)]: the day count is limited to nine digits. *)
Definition timedelta (days : Z) : result Z :=
  if (Z.abs days <=? 999999999) then Return (days * us_per_day)
  else Raise OverflowError.

(** [dt - delta]: the difference has to be a representable date. *)
Definition datetime_sub (dt : datetime) (delta : Z) : result datetime :=
  let r := dt - delta in
  if (0 <=? r) && (r <=? datetime_max) then Return r else Raise OverflowError.

(** ** The page as the driver shows it *)

(** A review node ([comments__item]).  Each lookup the code makes on it
    gives a value or raises: [Raise NoSuchElementException] when the child
    is missing, another exception when the driver fails otherwise (a stale
    handle, say). *)
Record WebElement : Type := {
  node : nat;                                 (* identity of the DOM node *)
  date_content : result (option string);      (* [content] of [feedback__date] *)
  rating_class : result string;               (* [class] of [feedback__rating] *)
  header_text : result string;                (* text of [feedback__header] *)
  body_text : result string                   (* text of [feedback__text] *)
}.

(** What [driver.get(url)] leaves the driver on.  [comments__item n] is
  the answer of [find_elements(By.CLASS_NAME, 'comments__item')] once
  [n] clicks have gone through; [click n e] is the outcome of clicking
  [e] when [n] clicks have gone through ([None]: no exception). *)
Record Page : Type := {
  rating_b : option string;                   (* text of the rating [<b>], if it ever shows *)
  product_b : option string;                  (* text of the product name [<b>] *)
  comments__item : nat -> list WebElement;
  click : nat -> WebElement -> option exn
}.

Section Paginator.

(** [now k] is the value of the [k]-th call of [datetime.now()]. *)
Variable now : nat -> datetime.

(** [strptime s] stands for
    [datetime.strptime(s, '%Y-%m-%dT%H:%M:%SZ')]; [None] is [ValueError]. *)
Variable strptime : string -> option datetime.

Definition feedback_date (feedback : WebElement) : result datetime :=
  content <- date_content feedback ;;
  match content with
  | None => Raise TypeError
  | Some feedback_date_str =>
      match strptime feedback_date_str with
      | Some d => Return d
      | None => Raise ValueError
      end
  end.

(** [datetime.now() - timedelta(days=time)], at clock reading [tick]. *)
Definition threshold (tick : nat) (time : Z) : result datetime :=
  delta <- timedelta time ;;
  datetime_sub (now tick) delta.

(** The test [feedback_date < (datetime.now()-timedelta(days=time))]
    on one review, the clock being read for the [tick]-th time. *)
Definition too_old (time : Z) (tick : nat) (feedback : WebElement) : result bool :=
  d <- feedback_date feedback ;;
  limit <- threshold tick time ;;
  Return (d <? limit).

(** The [for index, feedback in enumerate(...)] scan.  It answers the
    value of [feedback_border] and the number of clock readings made. *)
Fixpoint find_border (time : Z) (tick index : nat) (l : list WebElement)
  : result (option nat * nat) :=
  match l with
  | [] => Return (None, tick)
  | feedback :: rest =>
      old <- too_old time tick feedback ;;
      if old then Return (Some index, S tick)
      else find_border time (S tick) (S index) rest
  end.

(** The variables of the [while] loop. *)
Record loop_state : Type := {
  feedbacks_list : list WebElement;
  new_feedbacks_list : list WebElement;
  clicks : nat;                             (* clicks that went through *)
  ticks : nat                               (* clock readings so far *)
}.

Inductive step_result : Type :=
| Next (s : loop_state)
| Stop (r : result (list WebElement)).

(** One evaluation of the loop condition and, if it holds, of the body. *)
Definition iteration (page : Page) (time : Z) (s : loop_state) : step_result :=
  match new_feedbacks_list s with
  | [] => Stop (Return (feedbacks_list s))
  | first :: others =>
      let new := new_feedbacks_list s in
      match find_border time (ticks s) 0 new with
      | Raise e => Stop (Raise e)
      | Return (Some (S b), _) =>
          Stop (Return (feedbacks_list s ++ firstn (S b) new))
      | Return (Some O, _) => Stop (Return (feedbacks_list s))
      | Return (None, tick') =>
          let extended := feedbacks_list s ++ new in
          match click page (clicks s) (last others first) with
          | Some ElementNotInteractableException =>
              Stop (Return (extended ++ new))
          | Some e => Stop (Raise e)
          | None =>
              Next {| feedbacks_list := extended;
                      new_feedbacks_list :=
                        skipn (length extended)
                              (comments__item page (S (clicks s)));
                      clicks := S (clicks s);
                      ticks := tick' |}
          end
      end
  end.

(** The loop, run for at most [fuel] iterations; [None] when the fuel
    is used up with the loop still going. *)
Fixpoint while_loop (fuel : nat) (page : Page) (time : Z) (s : loop_state)
  : option (result (list WebElement)) :=
  match fuel with
  | O => None
  | S fuel' =>
      match iteration page time s with
      | Stop r => Some r
      | Next s' => while_loop fuel' page time s'
      end
  end.

Definition initial (page : Page) (tick : nat) : loop_state :=
  {| feedbacks_list := [];
     new_feedbacks_list := comments__item page 0;
     clicks := 0;
     ticks := tick |}.

Definition collect_all_feedbacks (fuel : nat) (page : Page) (time : Z) (tick : nat)
  : option (result (list WebElement)) :=
  while_loop fuel page time (initial page tick).

End Paginator.

(** ** The page handler *)

(** Module constants. *)
Definition TIME_DELTA : Z := 10.

(** [s[-1]] on a string: the last character, as a one-character string. *)
Fixpoint last_char (s : string) : result string :=
  match s with
  | EmptyString => Raise IndexError
  | String c EmptyString => Return (String c EmptyString)
  | String _ rest => last_char rest
  end.

(** [feedback_data_item] is an f-string of six interpolated values
    separated by [/].  The model keeps the six values, so that a field
    of a record can be spoken of, and [format_item] below gives the text
    that is sent. *)
Record feedback_data_item : Type := {
  feedback_name : option string;
  product_name : string;
  sku : string;
  feedback_stars : option string;
  feedback_text : option string;
  rating : float
}.

(** [str(x)] for a value that is a string or [None]. *)
Definition str_opt (o : option string) : string :=
  match o with
  | Some s => s
  | None => "None"
  end.

Section Harvester.

Variable now : nat -> datetime.
Variable strptime : string -> option datetime.

(** [float(s)]; [None] is [ValueError]. *)
Variable float_of_str : string -> option float.

(** [str(x)] for a float [x]. *)
Variable str_of_float : float -> string.

(** [driver.get(url)]: the page the browser ends on, or the exception
    the navigation raises. *)
Variable get : string -> result Page.

(** [f"{feedback_name}/{product_name}/{sku}/{feedback_stars}/{feedback_text}/{rating}"] *)
Definition format_item (it : feedback_data_item) : string :=
  (str_opt (feedback_name it) ++ "/" ++ product_name it ++ "/" ++ sku it ++ "/"
   ++ str_opt (feedback_stars it) ++ "/" ++ str_opt (feedback_text it) ++ "/"
   ++ str_of_float (rating it))%string.

(** [try: v = lookup ... except NoSuchElementException: pass], the
    variable [v] being [None] before: the exception named is caught, any
    other goes on. *)
Definition or_None {A : Type} (lookup : result A) : result (option A) :=
  match lookup with
  | Return a => Return (Some a)
  | Raise NoSuchElementException => Return None
  | Raise e => Raise e
  end.

(** The first [try] of the loop body: the star character, [None] when
    the review has no [feedback__rating] child. *)
Definition read_stars (feedback : WebElement) : result (option string) :=
  match rating_class feedback with
  | Return cls => c <- last_char cls ;; Return (Some c)
  | Raise NoSuchElementException => Return None
  | Raise e => Raise e
  end.

(** The body of [for feedback in all_feedbacks] up to the f-string;
    [None] is the [continue] of a five-star review, taken before the two
    other lookups are made. *)
Definition read_feedback (product_name sku : string) (rating : float)
           (feedback : WebElement) : result (option feedback_data_item) :=
  feedback_stars <- read_stars feedback ;;
  if match feedback_stars with
     | Some c => (c =? "5")%string
     | None => false
     end
  then Return None
  else
    feedback_name <- or_None (header_text feedback) ;;
    feedback_text <- or_None (body_text feedback) ;;
    Return (Some {| feedback_name := feedback_name;
                    product_name := product_name;
                    sku := sku;
                    feedback_stars := feedback_stars;
                    feedback_text := feedback_text;
                    rating := rating |}).

(** The [for] loop, appending to [DATA]. *)
Fixpoint for_feedbacks (product_name sku : string) (rating : float)
         (all_feedbacks : list WebElement) (DATA : list feedback_data_item)
  : list feedback_data_item * result unit :=
  match all_feedbacks with
  | [] => (DATA, Return tt)
  | feedback :: rest =>
      match read_feedback product_name sku rating feedback with
      | Raise e => (DATA, Raise e)
      | Return None => for_feedbacks product_name sku rating rest DATA
      | Return (Some feedback_data_item) =>
          for_feedbacks product_name sku rating rest (DATA ++ [feedback_data_item])
      end
  end.

(** The body of the [try] block of [handle_page]. *)
Definition try_block (fuel : nat) (page : Page) (sku : string) (tick : nat)
           (DATA : list feedback_data_item)
  : option (list feedback_data_item * result unit) :=
  match rating_b page with
  | None => Some (DATA, Raise TimeoutException)
  | Some text =>
      match float_of_str text with
      | None => Some (DATA, Raise ValueError)
      | Some rating =>
          if (rating <? 5)%float then
            match product_b page with
            | None => Some (DATA, Raise NoSuchElementException)
            | Some product_name =>
                match collect_all_feedbacks now strptime fuel page TIME_DELTA tick with
                | None => None
                | Some (Raise e) => Some (DATA, Raise e)
                | Some (Return all_feedbacks) =>
                    Some (for_feedbacks product_name sku rating all_feedbacks DATA)
                end
            end
          else Some (DATA, Return tt)
      end
  end.

(** [except TimeoutException: pass] *)
Definition except_TimeoutException (c : list feedback_data_item * result unit)
  : list feedback_data_item * result unit :=
  match c with
  | (DATA, Raise TimeoutException) => (DATA, Return tt)
  | _ => c
  end.

(** [handle_page]: the new value of [DATA] and how the coroutine ends;
    [None] when the paginator is still looping after [fuel] rounds.
    [tick] is the number of clock readings made before the call. *)
Definition handle_page (fuel : nat) (url sku : string) (tick : nat)
           (DATA : list feedback_data_item)
  : option (list feedback_data_item * result unit) :=
  match get url with
  | Raise e => Some (DATA, Raise e)
  | Return page =>
      option_map except_TimeoutException (try_block fuel page sku tick DATA)
  end.

End Harvester.

(** ** The dispatcher *)

(** What [bot.send_message] does on one call. *)
Inductive send_answer : Type :=
| Delivered
| ApiTelegramException (error_code : Z) (str_err : string)
| OtherFailure.               (* an exception [sent_data] does not catch *)

(** What the delivery phase does to the outside, in order. *)
Inductive action : Type :=
| SendMessage (chat_id text : string)
| Sleep (seconds : Z)
| Print (line : string)
| StopPolling
| LogInfo (line : string)
| SysExit.

Section Dispatcher.

Variable CHANNEL_ID : string.

(** [send_message i text]: the answer to the [i]-th call of
    [bot.send_message], made with [text]. *)
Variable send_message : nat -> string -> send_answer.

(** The [except] clause.  In the first branch [retry_after] is
    [int(err.error_code)], which is 429 there. *)
Definition on_api_error (error_code : Z) (str_err : string) : list action :=
  if error_code =? 429
  then [Print "Rate limit exceeded. Retrying after 429 seconds..."]
  else [Print ("Error: " ++ str_err)%string].

(** [for message in DATA], with [calls] sends made before; the boolean
    tells whether the loop ran to its end. *)
Fixpoint for_messages (calls : nat) (DATA : list string) : list action * bool :=
  match DATA with
  | [] => ([], true)
  | message :: rest =>
      match send_message calls message with
      | Delivered =>
          let (acts, ok) := for_messages (S calls) rest in
          (SendMessage CHANNEL_ID message :: acts, ok)
      | ApiTelegramException error_code str_err =>
          let (acts, ok) := for_messages (S calls) rest in
          (SendMessage CHANNEL_ID message :: on_api_error error_code str_err ++ acts, ok)
      | OtherFailure => ([SendMessage CHANNEL_ID message], false)
      end
  end.

Definition stop_bot : list action := [StopPolling; LogInfo "Finished"; SysExit].

Definition sent_data (DATA : list string) : list action :=
  let (acts, ok) := for_messages 0 DATA in
  if ok then acts ++ stop_bot else acts.

(** The texts handed to [bot.send_message], in order. *)
Definition sends (acts : list action) : list string :=
  flat_map (fun a => match a with SendMessage _ text => [text] | _ => [] end) acts.

(** The pauses taken, in order. *)
Definition sleeps (acts : list action) : list Z :=
  flat_map (fun a => match a with Sleep n => [n] | _ => [] end) acts.

End Dispatcher.

(** ** Notions the statements use *)

(** The reviews the [n]-th click reveals: what the listing holds after
    [n] clicks beyond the length it had before. *)
Definition batch (page : Page) (n : nat) : list WebElement :=
  match n with
  | O => comments__item page 0
  | S m => skipn (length (comments__item page m)) (comments__item page (S m))
  end.

Section Notions.

Variable now : nat -> datetime.
Variable strptime : string -> option datetime.

(** At clock reading [k] the age test on [e] runs and answers no. *)
Definition fresh_at (time : Z) (k : nat) (e : WebElement) : Prop :=
  too_old now strptime time k e = Return false.

(** At clock reading [k] the age test on [e] runs and answers yes: [e]
    is older than the cutoff. *)
Definition old_at (time : Z) (k : nat) (e : WebElement) : Prop :=
  too_old now strptime time k e = Return true.

(** The date of [e] is not older than [time] days before some reading
    of the clock. *)
Definition not_older (time : Z) (e : WebElement) : Prop :=
  exists k d,
    feedback_date strptime e = Return d /\
    now k - time * us_per_day <= d.

(** The reviews of [l] pass the age test when examined one after the
    other from reading [k] on. *)
Fixpoint all_fresh (time : Z) (k : nat) (l : list WebElement) : Prop :=
  match l with
  | [] => True
  | e :: rest => fresh_at time k e /\ all_fresh time (S k) rest
  end.

(** What one round of the loop can do, case by case. *)
Inductive round (page : Page) (time : Z) (s : loop_state) : step_result -> Prop :=
| round_exit :
    new_feedbacks_list s = [] ->
    round page time s (Stop (Return (feedbacks_list s)))
| round_raise e :
    round page time s (Stop (Raise e))
| round_border pre x post :
    new_feedbacks_list s = pre ++ x :: post ->
    all_fresh time (ticks s) pre ->
    old_at time (ticks s + length pre) x ->
    round page time s (Stop (Return (feedbacks_list s ++ pre)))
| round_stuck first others :
    new_feedbacks_list s = first :: others ->
    all_fresh time (ticks s) (new_feedbacks_list s) ->
    click page (clicks s) (last others first) = Some ElementNotInteractableException ->
    round page time s
      (Stop (Return ((feedbacks_list s ++ new_feedbacks_list s) ++ new_feedbacks_list s)))
| round_more first others :
    new_feedbacks_list s = first :: others ->
    all_fresh time (ticks s) (new_feedbacks_list s) ->
    click page (clicks s) (last others first) = None ->
    round page time s
      (Next {| feedbacks_list := feedbacks_list s ++ new_feedbacks_list s;
               new_feedbacks_list :=
                 skipn (length (feedbacks_list s ++ new_feedbacks_list s))
                       (comments__item page (S (clicks s)));
               clicks := S (clicks s);
               ticks := (ticks s + length (new_feedbacks_list s))%nat |}).

(** The loop variables are where [n] clicks put them: the batch is what
    the [n]-th click revealed, and as many reviews are retained as the
    listing held before that click. *)
Definition on_track (page : Page) (s : loop_state) : Prop :=
  new_feedbacks_list s = batch page (clicks s) /\
  length (feedbacks_list s) =
    match clicks s with
    | O => O
    | S m => length (comments__item page m)
    end.

(** After [n] clicks the run has a reason to end: nothing new was
    revealed, or a revealed review is beyond the age limit whenever it is
    examined, or the control cannot be clicked. *)
Definition stops_at (page : Page) (time : Z) (n : nat) : Prop :=
  batch page n = [] \/
  (exists e, In e (batch page n) /\ forall k, old_at time k e) \/
  (forall e, click page n e <> None).

End Notions.

(** The star count a one-character field denotes, when that character
    is a decimal digit. *)
Definition star_value (c : string) : option nat :=
  match c with
  | String a EmptyString =>
      let n := nat_of_ascii a in
      if ((48 <=? n) && (n <=? 57))%nat then Some (n - 48)%nat else None
  | _ => None
  end.

(** [it] is the record the loop of [handle_page] builds from review [e]. *)
Definition record_of (e : WebElement) (it : feedback_data_item) : Prop :=
  exists name code r, read_feedback name code r e = Return (Some it).

(** The star field of [it] is what the class attribute of the rating
    child of [e] ends in: absent without such a child, its last character
    otherwise, and that character is not the five. *)
Definition star_field_of (e : WebElement) (it : feedback_data_item) : Prop :=
  match feedback_stars it with
  | None => rating_class e = Raise NoSuchElementException
  | Some c =>
      exists cls, rating_class e = Return cls /\ last_char cls = Return c /\
                  String.length c = 1%nat /\ c <> "5"%string
  end.

(** The star field of [it], when present, is a count below the maximum. *)
Definition stars_below_max (it : feedback_data_item) : Prop :=
  forall c, feedback_stars it = Some c ->
            exists n, star_value c = Some n /\ (n < 5)%nat.

(** The star field of [it] is absent or a count from 1 to 5. *)
Definition stars_in_range (it : feedback_data_item) : Prop :=
  feedback_stars it = None \/
  exists c n, feedback_stars it = Some c /\ star_value c = Some n /\
              (1 <= n <= 5)%nat.

(** ** Sample runs

    A product page during the night of 2023-06-11, the clock moving by
    one second from one reading to the next. *)

Module Sample.

Definition second : Z := 1000000.

Definition now (k : nat) : datetime := 738681 * us_per_day + Z.of_nat k * second.

Definition strptime (s : string) : option datetime :=
  if (s =? "2023-06-10T12:00:00Z")%string
  then Some (738680 * us_per_day + 12 * 3600 * second)
  else if (s =? "2023-05-01T12:00:00Z")%string
  then Some (738640 * us_per_day + 12 * 3600 * second)
  else None.

Definition float_of_str (s : string) : option float :=
  if (s =? "4.5")%string then Some 4.5%float
  else if (s =? "5.0")%string then Some 5%float
  else None.

Definition review (n : nat) (date cls : string) : WebElement :=
  {| node := n;
     date_content := Return (Some date);
     rating_class := Return cls;
     header_text := Return "Ann"%string;
     body_text := Return "Stopped working"%string |}.

Definition recent : WebElement :=
  review 1 "2023-06-10T12:00:00Z" "feedback__rating stars-3".

Definition stale : WebElement :=
  review 2 "2023-05-01T12:00:00Z" "feedback__rating stars-1".

Definition praise : WebElement :=
  review 3 "2023-06-10T12:00:00Z" "feedback__rating stars-5".

(** A review whose class attribute ends in a digit beyond the scale. *)
Definition nine : WebElement :=
  review 4 "2023-06-10T12:00:00Z" "feedback__rating stars-9".

(** A review whose class attribute ends in the class name itself. *)
Definition unrated : WebElement :=
  review 5 "2023-06-10T12:00:00Z" "stars feedback__rating".

(** A review with a date and a body, and neither stars nor header. *)
Definition bare : WebElement :=
  {| node := 6;
     date_content := Return (Some "2023-06-10T12:00:00Z"%string);
     rating_class := Raise NoSuchElementException;
     header_text := Raise NoSuchElementException;
     body_text := Return "Too loud"%string |}.

(** A listing that never changes and whose last item takes the click. *)
Definition fixed_page (rating_text : string) (l : list WebElement) : Page :=
  {| rating_b := Some rating_text;
     product_b := Some "Lamp"%string;
     comments__item := fun _ => l;
     click := fun _ _ => None |}.

(** A listing whose last item cannot be interacted with. *)
Definition stuck_page (l : list WebElement) : Page :=
  {| rating_b := Some "4.5"%string;
     product_b := Some "Lamp"%string;
     comments__item := fun _ => l;
     click := fun _ _ => Some ElementNotInteractableException |}.

(** A listing that grows by one fresh review with every click. *)
Definition endless_page : Page :=
  {| rating_b := Some "4.5"%string;
     product_b := Some "Lamp"%string;
     comments__item := fun n => repeat recent (S n);
     click := fun _ _ => None |}.

(** The record built for product [A1] from one of the reviews above. *)
Definition relayed (stars : option string) : feedback_data_item :=
  {| feedback_name := Some "Ann"%string;
     product_name := "Lamp";
     sku := "A1";
     feedback_stars := stars;
     feedback_text := Some "Stopped working"%string;
     rating := 4.5 |}.

(** The browser: every address shows the same page. *)
Definition get (page : Page) (url : string) : result Page := Return page.

(** The channel answers 429 to the first call and accepts the others. *)
Definition limited_once (i : nat) (text : string) : send_answer :=
  match i with
  | O => ApiTelegramException 429 "Too Many Requests: retry after 35"
  | S _ => Delivered
  end.

End Sample.

(** ** Further notions *)

(** The reviews the first [n] batches hold, in the order of reveal. *)
Definition revealed (page : Page) (n : nat) : list WebElement :=
  concat (map (batch page) (seq 0 n)).

(** The records one review contributes to [DATA]: none for a five-star
    review (or a failing star lookup), one otherwise. *)
Definition records_of (product_name sku : string) (rating : float)
           (feedback : WebElement) : list feedback_data_item :=
  match read_feedback product_name sku rating feedback with
  | Return (Some feedback_data_item) => [feedback_data_item]
  | _ => []
  end.

(** A lookup gives a value or finds the child missing. *)
Definition found_or_missing {A : Type} (lookup : result A) : Prop :=
  lookup = Raise NoSuchElementException \/ exists a, lookup = Return a.

(** The three lookups of the record loop go through on [feedback]: each
    child is found or missing, and the class attribute of the rating
    child, when there is one, is not the empty string. *)
Definition lookups_readable (feedback : WebElement) : Prop :=
  found_or_missing (rating_class feedback) /\
  rating_class feedback <> Return EmptyString /\
  found_or_missing (header_text feedback) /\
  found_or_missing (body_text feedback).

(** The value a lookup leaves in its variable: the text found, or
    [None]. *)
Definition found {A : Type} (lookup : result A) : option A :=
  match lookup with
  | Return a => Some a
  | Raise _ => None
  end.

(** The fields of a record that are present, in the order of the
    f-string, and the text that would show only those. *)
Definition present_fields (str_of_float : float -> string)
           (it : feedback_data_item) : list string :=
  match feedback_name it with Some s => [s] | None => [] end
  ++ [product_name it; sku it]
  ++ match feedback_stars it with Some s => [s] | None => [] end
  ++ match feedback_text it with Some s => [s] | None => [] end
  ++ [str_of_float (rating it)].

Definition omits_missing_fields (str_of_float : float -> string)
           (it : feedback_data_item) : Prop :=
  format_item str_of_float it = String.concat "/" (present_fields str_of_float it).

(** ** Further sample data *)

Module Scenario.

(** A review without [feedback__date] child. *)
Definition undated : WebElement :=
  {| node := 7;
     date_content := Raise NoSuchElementException;
     rating_class := Return "feedback__rating stars-2"%string;
     header_text := Return "Bob"%string;
     body_text := Return "Arrived late"%string |}.

(** A review whose rating child has an empty class attribute. *)
Definition classless : WebElement :=
  {| node := 8;
     date_content := Return (Some "2023-06-10T12:00:00Z"%string);
     rating_class := Return EmptyString;
     header_text := Return "Eve"%string;
     body_text := Return "Fine"%string |}.

(** A review whose body lookup fails on a stale handle. *)
Definition gone : WebElement :=
  {| node := 9;
     date_content := Return (Some "2023-06-10T12:00:00Z"%string);
     rating_class := Return "feedback__rating stars-2"%string;
     header_text := Return "Dan"%string;
     body_text := Raise StaleElementReferenceException |}.

(** The record of [Sample.bare] for product [A1]. *)
Definition bare_record : feedback_data_item :=
  {| feedback_name := None;
     product_name := "Lamp";
     sku := "A1";
     feedback_stars := None;
     feedback_text := Some "Too loud"%string;
     rating := 4.5 |}.

(** The text of a float, for the one rating the samples use. *)
Definition str_of_float (x : float) : string := "4.5".

(** A page whose rating never shows. *)
Definition blank_page : Page :=
  {| rating_b := None;
     product_b := None;
     comments__item := fun _ => [Sample.recent];
     click := fun _ _ => None |}.

(** A listing of two reviews to which the first click adds a third. *)
Definition growing_once : Page :=
  {| rating_b := Some "4.5"%string;
     product_b := Some "Lamp"%string;
     comments__item := fun n =>
       match n with
       | O => [Sample.recent; Sample.bare]
       | S _ => [Sample.recent; Sample.bare; Sample.stale]
       end;
     click := fun _ _ => None |}.

(** A browser whose navigation times out. *)
Definition get_timeout (url : string) : result Page := Raise TimeoutException.

(** A channel whose second call fails with an exception other than
    [ApiTelegramException]. *)
Definition broken_at_second (i : nat) (text : string) : send_answer :=
  match i with
  | 1%nat => OtherFailure
  | _ => Delivered
  end.

End Scenario.

(** * Properties of the paginator *)

Section PaginatorFacts.

Variable now : nat -> datetime.
Variable strptime : string -> option datetime.

#[local] Abbreviation find_border := (find_border now strptime).
#[local] Abbreviation iteration := (iteration now strptime).
#[local] Abbreviation while_loop := (while_loop now strptime).
#[local] Abbreviation fresh_at := (fresh_at now strptime).
#[local] Abbreviation old_at := (old_at now strptime).
#[local] Abbreviation not_older := (not_older now strptime).
#[local] Abbreviation all_fresh := (all_fresh now strptime).
#[local] Abbreviation round := (round now strptime).
#[local] Abbreviation stops_at := (stops_at now strptime).

Lemma bind_Return {A B} (c : result A) (k : A -> result B) (b : B) :
  (x <- c ;; k x) = Return b -> exists a, c = Return a /\ k a = Return b.
Proof. destruct c as [a|e]; simpl; [eauto | discriminate]. Qed.

Lemma threshold_value time k limit :
  threshold now k time = Return limit -> limit = now k - time * us_per_day.
Proof.
unfold threshold, timedelta, datetime_sub.
destruct (Z.abs time <=? 999999999); simpl; [|discriminate].
destruct ((0 <=? now k - time * us_per_day)
          && (now k - time * us_per_day <=? datetime_max)); [|discriminate].
intros H; now inversion H.
Qed.

Lemma fresh_at_not_older time k e : fresh_at time k e -> not_older time e.
Proof.
intros H. apply bind_Return in H as (d & Hd & H).
apply bind_Return in H as (limit & Hl & H).
exists k, d. split; trivial.
apply threshold_value in Hl. inversion H as [Hcmp]. apply Z.ltb_ge in Hcmp. lia.
Qed.

Lemma all_fresh_not_older time k l :
  all_fresh time k l -> Forall (not_older time) l.
Proof.
revert k; induction l as [|e l IH]; intros k H; constructor.
- apply fresh_at_not_older with k, H.
- apply (IH (S k)), H.
Qed.

Lemma all_fresh_in time l e : forall k,
  all_fresh time k l -> In e l -> exists j, fresh_at time j e.
Proof.
induction l as [|a l IH]; intros k H Hin; [contradiction|].
destruct Hin as [->|Hin]; [exists k; apply H | apply (IH (S k)); [apply H | exact Hin]].
Qed.

(** No border: every review of the batch passed the test. *)
Lemma find_border_None time l : forall tick index tick',
  find_border time tick index l = Return (None, tick') ->
  all_fresh time tick l /\ tick' = (tick + length l)%nat.
Proof.
induction l as [|e l IH]; intros tick index tick' H; simpl in H.
- inversion H; subst. simpl. split; [exact I | lia].
- apply bind_Return in H as ([|] & Hold & H); [discriminate|].
  apply IH in H as [Hfresh ->]. simpl. split; [now split | lia].
Qed.

(** A border: the batch splits at it into fresh reviews and a first
    old one. *)
Lemma find_border_Some time l : forall tick index b tick',
  find_border time tick index l = Return (Some b, tick') ->
  exists pre x post,
    l = pre ++ x :: post /\ b = (index + length pre)%nat /\
    all_fresh time tick pre /\ old_at time (tick + length pre) x.
Proof.
induction l as [|e l IH]; intros tick index b tick' H; simpl in H.
- discriminate.
- apply bind_Return in H as ([|] & Hold & H).
  + inversion H; subst. exists [], e, l. simpl.
    repeat split; [lia|]. now rewrite Nat.add_0_r.
  + apply IH in H as (pre & x & post & -> & -> & Hpre & Hx).
    exists (e :: pre), x, post. simpl. repeat split; [lia|exact Hold|exact Hpre|].
    replace (tick + S (length pre))%nat with (S tick + length pre)%nat by lia.
    exact Hx.
Qed.

(** The converse: fresh reviews then an old one give the border. *)
Lemma find_border_split time pre x post : forall tick index,
  all_fresh time tick pre -> old_at time (tick + length pre) x ->
  find_border time tick index (pre ++ x :: post)
  = Return (Some (index + length pre)%nat, S (tick + length pre)).
Proof.
induction pre as [|e pre IH]; intros tick index Hpre Hx; simpl in *.
- rewrite !Nat.add_0_r in *. red in Hx. rewrite Hx. reflexivity.
- destruct Hpre as [He Hpre]. red in He. rewrite He. simpl.
  rewrite IH; trivial.
  + do 3 f_equal; lia.
  + replace (S tick + length pre)%nat with (tick + S (length pre))%nat by lia.
    exact Hx.
Qed.

Lemma fresh_old_exclusive time k e : fresh_at time k e -> old_at time k e -> False.
Proof. unfold fresh_at, old_at. congruence. Qed.

Lemma firstn_length_app {A} (pre post : list A) : firstn (length pre) (pre ++ post) = pre.
Proof. induction pre as [|a pre IH]; simpl; [destruct post|rewrite IH]; reflexivity. Qed.

Lemma iteration_round page time s : round page time s (iteration page time s).
Proof.
unfold iteration.
destruct (new_feedbacks_list s) as [|first others] eqn:Hnew.
- now apply round_exit.
- rewrite <- Hnew.
  destruct (find_border time (ticks s) 0 (new_feedbacks_list s))
    as [[[b|] tick']|e] eqn:Hscan.
  + apply find_border_Some in Hscan as (pre & x & post & Hsplit & -> & Hpre & Hx).
    pose proof (round_border now strptime page time s pre x post Hsplit Hpre Hx) as R.
    destruct pre as [|p pre]; cbn [length Nat.add].
    * rewrite app_nil_r in R. exact R.
    * rewrite Hsplit. change (S (length pre)) with (length (p :: pre)).
      rewrite firstn_length_app. exact R.
  + apply find_border_None in Hscan as [Hfresh ->].
    destruct (click page (clicks s) (last others first)) as [e|] eqn:Hclick.
    * destruct e; try apply round_raise.
      now apply round_stuck with first others.
    * now apply round_more with first others.
  + apply round_raise.
Qed.

(** The retained reviews stay within the age limit from round to round. *)
Lemma round_not_older page time s r :
  round page time s r ->
  Forall (not_older time) (feedbacks_list s) ->
  match r with
  | Stop (Return l) => Forall (not_older time) l
  | Stop (Raise _) => True
  | Next s' => Forall (not_older time) (feedbacks_list s')
  end.
Proof.
intros Hr Hkept. destruct Hr; simpl; trivial.
- apply Forall_app; split; [exact Hkept|]. now apply all_fresh_not_older with (ticks s).
- repeat (apply Forall_app; split); trivial; now apply all_fresh_not_older with (ticks s).
- apply Forall_app; split; trivial; now apply all_fresh_not_older with (ticks s).
Qed.

Lemma while_loop_not_older page time fuel : forall s l,
  while_loop fuel page time s = Some (Return l) ->
  Forall (not_older time) (feedbacks_list s) ->
  Forall (not_older time) l.
Proof.
induction fuel as [|fuel IH]; intros s l H Hkept; simpl in H; [discriminate|].
pose proof (round_not_older page time s _ (iteration_round page time s) Hkept) as Hr.
destruct (iteration page time s) as [s'|[l'|e]].
- now apply IH with s'.
- now inversion H; subst.
- discriminate.
Qed.

Lemma round_progress page time s s' :
  round page time s (Next s') ->
  (length (feedbacks_list s) < length (feedbacks_list s'))%nat.
Proof.
intros Hr. inversion Hr as [| | | |first others Hnew _ _ Hs']; subst s'; simpl.
rewrite length_app, Hnew. simpl. lia.
Qed.

Lemma round_on_track page time s s' :
  round page time s (Next s') -> on_track page s ->
  on_track page s' /\ clicks s' = S (clicks s).
Proof.
intros Hr [Hbatch Hlen].
inversion Hr as [| | | |first others Hnew _ _ Hs']; subst s'; simpl.
assert (length (feedbacks_list s ++ new_feedbacks_list s)
        = length (comments__item page (clicks s))) as Hsum.
{ rewrite length_app, Hlen, Hbatch.
  destruct (clicks s) as [|m]; simpl; trivial.
  assert (length (batch page (S m)) <> 0)%nat as Hne
    by (rewrite <- Hbatch, Hnew; discriminate).
  simpl in Hne. rewrite length_skipn in *. lia. }
split; [split|]; simpl; trivial.
now rewrite Hsum.
Qed.

Lemma round_stops page time s r :
  on_track page s -> stops_at page time (clicks s) -> round page time s r ->
  exists res, r = Stop res.
Proof.
intros [Hbatch _] Hstop Hr. destruct Hr; eauto.
exfalso. destruct Hstop as [Hnil|[(e & Hin & Hold)|Hclick]].
- congruence.
- rewrite <- Hbatch in Hin.
  destruct (all_fresh_in time _ e _ H0 Hin) as [k Hk].
  exact (fresh_old_exclusive time k e Hk (Hold k)).
- exact (Hclick _ H1).
Qed.

Lemma while_loop_terminates page time m : forall s,
  on_track page s -> stops_at page time (clicks s + m) ->
  exists r, while_loop (S m) page time s = Some r.
Proof.
induction m as [|m IH]; intros s Htrack Hstop.
- rewrite Nat.add_0_r in Hstop. simpl.
  destruct (round_stops page time s _ Htrack Hstop (iteration_round page time s))
    as [res ->]. eauto.
- pose proof (iteration_round page time s) as Hr.
  change (while_loop (S (S m)) page time s)
    with (match iteration page time s with
          | Stop r => Some r
          | Next s' => while_loop (S m) page time s'
          end).
  destruct (iteration page time s) as [s'|res]; [|eauto].
  destruct (round_on_track page time s s' Hr Htrack) as [Htrack' Hclicks].
  apply IH; trivial. rewrite Hclicks.
  replace (S (clicks s) + m)%nat with (clicks s + S m)%nat by lia. exact Hstop.
Qed.

Lemma while_loop_more_fuel page time fuel : forall s r fuel',
  while_loop fuel page time s = Some r -> (fuel <= fuel')%nat ->
  while_loop fuel' page time s = Some r.
Proof.
induction fuel as [|fuel IH]; intros s r fuel' H Hle; simpl in H; [discriminate|].
destruct fuel' as [|fuel']; [lia|]. simpl.
destruct (iteration page time s) as [s'|res]; trivial.
apply IH; [exact H | lia].
Qed.

(** A round that meets a first old review ends the run there. *)
Lemma while_loop_border page time fuel s pre x post :
  new_feedbacks_list s = pre ++ x :: post ->
  all_fresh time (ticks s) pre ->
  old_at time (ticks s + length pre) x ->
  while_loop (S fuel) page time s = Some (Return (feedbacks_list s ++ pre)).
Proof.
intros Hsplit Hpre Hx.
change (while_loop (S fuel) page time s)
  with (match iteration page time s with
        | Stop r => Some r
        | Next s' => while_loop fuel page time s'
        end).
unfold iteration.
destruct (new_feedbacks_list s) as [|first others];
  [destruct pre; discriminate|].
rewrite Hsplit, (find_border_split time pre x post (ticks s) 0 Hpre Hx).
destruct pre as [|p pre]; cbn [length Nat.add].
- now rewrite app_nil_r.
- change (S (length pre)) with (length (p :: pre)).
  now rewrite firstn_length_app.
Qed.

Lemma find_border_fresh time l : forall tick index,
  all_fresh time tick l ->
  find_border time tick index l = Return (None, (tick + length l)%nat).
Proof.
induction l as [|e l IH]; intros tick index H; simpl in *.
- now rewrite Nat.add_0_r.
- destruct H as [He H]. red in He. rewrite He. simpl.
  rewrite IH; trivial. do 2 f_equal. lia.
Qed.

(** A round whose batch is all fresh and whose click raises
    [ElementNotInteractableException] ends the run with the batch
    appended twice: once by the [else] branch, once by the handler. *)
Lemma while_loop_stuck page time fuel s first others :
  new_feedbacks_list s = first :: others ->
  all_fresh time (ticks s) (new_feedbacks_list s) ->
  click page (clicks s) (last others first) = Some ElementNotInteractableException ->
  while_loop (S fuel) page time s
  = Some (Return ((feedbacks_list s ++ new_feedbacks_list s) ++ new_feedbacks_list s)).
Proof.
intros Hnew Hfresh Hclick.
change (while_loop (S fuel) page time s)
  with (match iteration page time s with
        | Stop r => Some r
        | Next s' => while_loop fuel page time s'
        end).
unfold iteration.
rewrite (find_border_fresh time _ (ticks s) 0 Hfresh).
rewrite Hnew at 1. now rewrite Hclick.
Qed.

Lemma initial_on_track page tick : on_track page (initial page tick).
Proof. split; reflexivity. Qed.

Lemma all_fresh_app time a : forall k b,
  all_fresh time k a -> all_fresh time (k + length a) b ->
  all_fresh time k (a ++ b).
Proof.
induction a as [|x a IH]; intros k b Ha Hb; simpl in *.
- now rewrite Nat.add_0_r in Hb.
- destruct Ha as [Hx Ha]. split; trivial. apply IH; trivial.
  now replace (S k + length a)%nat with (k + S (length a))%nat by lia.
Qed.

(** The retained reviews are the reviews scanned so far, each fresh at
    the reading of its own comparison. *)
Lemma round_scanned page time tick s r :
  round page time s r ->
  all_fresh time tick (feedbacks_list s) ->
  ticks s = (tick + length (feedbacks_list s))%nat ->
  match r with
  | Stop (Return l) =>
      exists scanned again,
        l = scanned ++ again /\ all_fresh time tick scanned /\ incl again scanned
  | Stop (Raise _) => True
  | Next s' =>
      all_fresh time tick (feedbacks_list s') /\
      ticks s' = (tick + length (feedbacks_list s'))%nat
  end.
Proof.
intros Hr Hkept Hticks. destruct Hr; simpl; trivial.
- exists (feedbacks_list s), []. rewrite app_nil_r.
  repeat split; trivial. apply incl_nil_l.
- exists (feedbacks_list s ++ pre), []. rewrite app_nil_r.
  repeat split; [|apply incl_nil_l].
  apply all_fresh_app; trivial. now rewrite <- Hticks.
- exists (feedbacks_list s ++ new_feedbacks_list s), (new_feedbacks_list s).
  repeat split; [|apply incl_appr, incl_refl].
  apply all_fresh_app; trivial. now rewrite <- Hticks.
- split; [|rewrite length_app; lia].
  apply all_fresh_app; trivial. now rewrite <- Hticks.
Qed.

Lemma while_loop_scanned page time tick fuel : forall s l,
  while_loop fuel page time s = Some (Return l) ->
  all_fresh time tick (feedbacks_list s) ->
  ticks s = (tick + length (feedbacks_list s))%nat ->
  exists scanned again,
    l = scanned ++ again /\ all_fresh time tick scanned /\ incl again scanned.
Proof.
induction fuel as [|fuel IH]; intros s l H Hkept Hticks; simpl in H; [discriminate|].
pose proof (round_scanned page time tick s _ (iteration_round page time s)
              Hkept Hticks) as Hr.
destruct (iteration page time s) as [s'|[l'|e]].
- destruct Hr as [Hkept' Hticks']. now apply IH with s'.
- now inversion H; subst.
- discriminate.
Qed.

(** C4 (boundary at zero).  When the first review of the batch under
    scan is already older than the cutoff, this very round ends the run
    and the answer is the list retained before the round, with nothing of
    the batch added and no click made. *)
Theorem boundary_at_zero page time fuel s x rest :
  new_feedbacks_list s = x :: rest ->
  old_at time (ticks s) x ->
  while_loop (S fuel) page time s = Some (Return (feedbacks_list s)).
Proof.
intros Hnew Hold.
rewrite (while_loop_border page time fuel s [] x rest Hnew I);
  [now rewrite app_nil_r | now rewrite Nat.add_0_r].
Qed.

(** C5 (progress and termination).  A round that does not end the loop
    leaves strictly more reviews retained than it found; and if after
    some number [n] of clicks nothing new is revealed, or a revealed
    review is beyond the age limit, or the control cannot be clicked, then
    the run ends within [n + 1] rounds: any larger number of rounds gives
    the same outcome. *)
Theorem progress_and_termination page time :
  (forall s s',
      iteration page time s = Next s' ->
      (length (feedbacks_list s) < length (feedbacks_list s'))%nat) /\
  (forall n tick,
      stops_at page time n ->
      exists r, forall fuel,
          (n < fuel)%nat ->
          collect_all_feedbacks now strptime fuel page time tick = Some r).
Proof.
split.
- intros s s' H. apply round_progress with page time.
  rewrite <- H. apply iteration_round.
- intros n tick Hstop.
  destruct (while_loop_terminates page time n (initial page tick)
              (initial_on_track page tick) Hstop) as [r Hr].
  exists r. intros fuel Hfuel.
  apply while_loop_more_fuel with (S n); [exact Hr | lia].
Qed.

End PaginatorFacts.

(** Without a reason to stop the loop does go on: fifty rounds on a
    listing that keeps growing by fresh reviews leave it running. *)
Example growing_listing_keeps_the_loop_going :
  collect_all_feedbacks Sample.now Sample.strptime 50 Sample.endless_page TIME_DELTA 0
  = None.
Proof. vm_compute. reflexivity. Qed.

Lemma boundary_at_zero_witness :
  while_loop Sample.now Sample.strptime 1
             (Sample.fixed_page "4.5" [Sample.stale; Sample.recent]) TIME_DELTA
             {| feedbacks_list := [Sample.recent];
                new_feedbacks_list := [Sample.stale; Sample.recent];
                clicks := 1;
                ticks := 1 |}
  = Some (Return [Sample.recent]).
Proof.
apply (boundary_at_zero Sample.now Sample.strptime _ TIME_DELTA 0
                        {| feedbacks_list := [Sample.recent];
                           new_feedbacks_list := [Sample.stale; Sample.recent];
                           clicks := 1;
                           ticks := 1 |}
                        Sample.stale [Sample.recent]).
- reflexivity.
- reflexivity.
Defined.

Lemma progress_and_termination_witness :
  (length (feedbacks_list (initial Sample.endless_page 0))
   < length [Sample.recent])%nat /\
  exists r, forall fuel,
      (1 < fuel)%nat ->
      collect_all_feedbacks Sample.now Sample.strptime fuel
                            (Sample.fixed_page "4.5" [Sample.recent]) TIME_DELTA 0
      = Some r.
Proof.
split.
- apply (proj1 (progress_and_termination Sample.now Sample.strptime
                  Sample.endless_page TIME_DELTA)
               (initial Sample.endless_page 0)
               {| feedbacks_list := [Sample.recent];
                  new_feedbacks_list := [Sample.recent];
                  clicks := 1;
                  ticks := 1 |}).
  reflexivity.
- apply (proj2 (progress_and_termination Sample.now Sample.strptime
                  (Sample.fixed_page "4.5" [Sample.recent]) TIME_DELTA)
               1%nat 0%nat).
  left. reflexivity.
Defined.

(** C2, at a listing of one recent review whose click raises
    [ElementNotInteractableException]: the batch is appended by the
    [else] branch and once more by the [except] clause, so the review is
    returned twice. *)
Example stuck_control_returns_batch_twice :
  collect_all_feedbacks Sample.now Sample.strptime 1
                        (Sample.stuck_page [Sample.recent]) TIME_DELTA 0
  = Some (Return [Sample.recent; Sample.recent]) /\
  ~ NoDup [Sample.recent; Sample.recent].
Proof.
split; [reflexivity|].
intros H. inversion H as [|a l Hnotin _]. apply Hnotin. now left.
Qed.

(** * Properties of the page handler *)

Section HarvesterFacts.

Variable now : nat -> datetime.
Variable strptime : string -> option datetime.
Variable float_of_str : string -> option float.
Variable str_of_float : float -> string.
Variable get : string -> result Page.

#[local] Abbreviation collect_all_feedbacks := (collect_all_feedbacks now strptime).
#[local] Abbreviation while_loop := (while_loop now strptime).
#[local] Abbreviation iteration := (iteration now strptime).
#[local] Abbreviation handle_page := (handle_page now strptime float_of_str get).
#[local] Abbreviation try_block := (try_block now strptime float_of_str).
#[local] Abbreviation format_item := (format_item str_of_float).
#[local] Abbreviation not_older := (not_older now strptime).
#[local] Abbreviation all_fresh := (all_fresh now strptime).
#[local] Abbreviation old_at := (old_at now strptime).
#[local] Abbreviation stops_at := (stops_at now strptime).

Lemma or_None_found {A} (lookup : result A) :
  found_or_missing lookup -> or_None lookup = Return (found lookup).
Proof. intros [->|[a ->]]; reflexivity. Qed.

Lemma or_None_Return {A} (lookup : result A) o :
  or_None lookup = Return o -> found_or_missing lookup /\ o = found lookup.
Proof.
destruct lookup as [a|[]]; simpl; intros H; inversion H; subst; split;
  trivial; try (now left); right; now exists a.
Qed.

Lemma found_None {A} (lookup : result A) :
  found_or_missing lookup ->
  (found lookup = None <-> lookup = Raise NoSuchElementException).
Proof.
intros [->|[a ->]]; simpl; split; trivial; discriminate.
Qed.

Lemma last_char_single cls c : last_char cls = Return c -> String.length c = 1%nat.
Proof.
induction cls as [|a cls IH]; simpl; [discriminate|].
destruct cls; [intros H; inversion H; reflexivity | exact IH].
Qed.

Lemma read_stars_Some e c :
  read_stars e = Return (Some c) ->
  exists cls, rating_class e = Return cls /\ last_char cls = Return c.
Proof.
unfold read_stars. destruct (rating_class e) as [cls|[]]; try discriminate.
destruct (last_char cls) as [c'|x] eqn:H; simpl; [|discriminate].
intros E; inversion E; subst. eauto.
Qed.

Lemma read_stars_None e :
  read_stars e = Return None <-> rating_class e = Raise NoSuchElementException.
Proof.
unfold read_stars. destruct (rating_class e) as [cls|[]]; simpl;
  try (split; [discriminate | intros H; inversion H]); try tauto.
destruct (last_char cls); simpl; split; discriminate.
Qed.

(** What a review turns into, read off the three lookups. *)
Lemma read_feedback_fields name code r e stars :
  read_stars e = Return stars -> stars <> Some "5"%string ->
  found_or_missing (header_text e) -> found_or_missing (body_text e) ->
  read_feedback name code r e
  = Return (Some {| feedback_name := found (header_text e);
                    product_name := name;
                    sku := code;
                    feedback_stars := stars;
                    feedback_text := found (body_text e);
                    rating := r |}).
Proof.
intros Hstars Hne Hheader Hbody. unfold read_feedback. rewrite Hstars. simpl.
rewrite (or_None_found _ Hheader), (or_None_found _ Hbody). simpl.
destruct stars as [c|]; trivial.
destruct (String.eqb_spec c "5"); [congruence|reflexivity].
Qed.

Lemma read_feedback_five name code r e :
  read_stars e = Return (Some "5"%string) -> read_feedback name code r e = Return None.
Proof. intros H. unfold read_feedback. rewrite H. reflexivity. Qed.

Lemma read_feedback_Some name code r e it :
  read_feedback name code r e = Return (Some it) ->
  read_stars e = Return (feedback_stars it) /\
  feedback_stars it <> Some "5"%string /\
  (found_or_missing (header_text e) /\ feedback_name it = found (header_text e)) /\
  (found_or_missing (body_text e) /\ feedback_text it = found (body_text e)) /\
  product_name it = name /\ sku it = code /\ rating it = r.
Proof.
unfold read_feedback. intros H.
apply bind_Return in H as (stars & Hstars & H).
assert (stars <> Some "5"%string) as Hne.
{ intros ->. simpl in H. discriminate. }
destruct (match stars with Some c => (c =? "5")%string | None => false end);
  [discriminate|].
apply bind_Return in H as (author & Hauthor & H).
apply bind_Return in H as (body & Hbody & H).
inversion H; subst; simpl.
apply or_None_Return in Hauthor, Hbody. now repeat split.
Qed.

Lemma last_char_nonempty s : s <> EmptyString -> exists c, last_char s = Return c.
Proof.
induction s as [|b s IH]; [congruence|]. intros _. simpl.
destruct s as [|b' s]; [eauto|]. apply IH. discriminate.
Qed.

Lemma read_feedback_returns name code r e :
  lookups_readable e -> exists o, read_feedback name code r e = Return o.
Proof.
intros (Hcls & Hne & Hheader & Hbody).
assert (exists stars, read_stars e = Return stars) as [stars Hstars].
{ unfold read_stars. destruct Hcls as [->|[cls Hcls]]; [eauto|].
  rewrite Hcls in *. destruct (last_char_nonempty cls) as [c ->];
    [congruence | simpl; eauto]. }
unfold read_feedback. rewrite Hstars. simpl.
destruct (match stars with Some c => (c =? "5")%string | None => false end);
  [eauto|].
rewrite (or_None_found _ Hheader), (or_None_found _ Hbody). simpl. eauto.
Qed.

(** The records the loop appends come one by one from reviews of the
    list it walks. *)
Lemma for_feedbacks_appends name code r l : forall DATA DATA' res,
  for_feedbacks name code r l DATA = (DATA', res) ->
  exists els items,
    DATA' = DATA ++ items /\
    Forall2 (fun e it => read_feedback name code r e = Return (Some it)) els items /\
    incl els l.
Proof.
induction l as [|e l IH]; intros DATA DATA' res H; simpl in H.
- inversion H; subst. exists [], []. rewrite app_nil_r.
  repeat split; [constructor | apply incl_refl].
- destruct (read_feedback name code r e) as [[it|]|x] eqn:He.
  + apply IH in H as (els & items & -> & Hrec & Hincl).
    exists (e :: els), (it :: items). rewrite <- app_assoc. repeat split.
    * now constructor.
    * intros a [<-|Ha]; [now left | right; now apply Hincl].
  + apply IH in H as (els & items & -> & Hrec & Hincl).
    exists els, items. repeat split; trivial. now apply incl_tl.
  + inversion H; subst. exists [], []. rewrite app_nil_r.
    repeat split; [constructor | apply incl_nil_l].
Qed.

(** The loop walks the list from its head: what it has appended when it
    ends is the records of the reviews it went through, in their order,
    and it ends at the end of the list or at a review whose lookups
    raise. *)
Lemma for_feedbacks_processed name code r l : forall DATA DATA' res,
  for_feedbacks name code r l DATA = (DATA', res) ->
  exists processed rest,
    l = processed ++ rest /\
    DATA' = DATA ++ flat_map (records_of name code r) processed /\
    match res with
    | Return _ => rest = []
    | Raise x => exists e rest', rest = e :: rest' /\
                                 read_feedback name code r e = Raise x
    end.
Proof.
induction l as [|e l IH]; intros DATA DATA' res H; simpl in H.
- inversion H; subst. exists [], []. simpl. now rewrite app_nil_r.
- destruct (read_feedback name code r e) as [[it|]|x] eqn:He.
  + apply IH in H as (processed & rest & -> & -> & Hres).
    exists (e :: processed), rest. simpl. unfold records_of at 2. rewrite He.
    repeat split; trivial. now rewrite <- app_assoc.
  + apply IH in H as (processed & rest & -> & -> & Hres).
    exists (e :: processed), rest. simpl. unfold records_of at 2. rewrite He.
    now repeat split.
  + inversion H; subst. exists [], (e :: l). simpl. rewrite app_nil_r.
    repeat split; trivial. now exists e, l.
Qed.

(** On reviews whose lookups go through the loop is a filter that keeps
    the order. *)
Lemma for_feedbacks_flat_map name code r l : forall DATA,
  Forall lookups_readable l ->
  for_feedbacks name code r l DATA
  = (DATA ++ flat_map (records_of name code r) l, Return tt).
Proof.
induction l as [|e l IH]; intros DATA Hl; simpl.
- now rewrite app_nil_r.
- inversion Hl as [|? ? He Hrest]; subst. unfold records_of at 1.
  destruct (read_feedback_returns name code r e He) as [[it|] ->].
  + rewrite IH; trivial. now rewrite <- app_assoc.
  + now rewrite IH.
Qed.

Lemma for_feedbacks_app name code r pre : forall post DATA,
  Forall lookups_readable pre ->
  for_feedbacks name code r (pre ++ post) DATA
  = for_feedbacks name code r post (DATA ++ flat_map (records_of name code r) pre).
Proof.
induction pre as [|a pre IH]; intros post DATA Hpre; simpl.
- now rewrite app_nil_r.
- inversion Hpre as [|? ? Ha Hrest]; subst. unfold records_of at 1.
  destruct (read_feedback_returns name code r a Ha) as [[it|] ->].
  + rewrite IH; trivial. now rewrite <- app_assoc.
  + now rewrite IH.
Qed.

Lemma except_TimeoutException_fst c : fst (except_TimeoutException c) = fst c.
Proof. destruct c as [DATA [u|[]]]; reflexivity. Qed.

(** Every record the [try] block appends is built from a review that
    the paginator returned, hence from one within the age limit. *)
Lemma try_block_appends fuel page code tick DATA DATA' res :
  try_block fuel page code tick DATA = Some (DATA', res) ->
  exists els items,
    DATA' = DATA ++ items /\
    Forall2 record_of els items /\
    Forall (not_older TIME_DELTA) els.
Proof.
assert (exists els items : list _,
           DATA = DATA ++ items /\ Forall2 record_of els items /\
           Forall (not_older TIME_DELTA) els) as Hnone
  by (exists [], []; rewrite app_nil_r; repeat split; constructor).
unfold try_block. intros Htry.
destruct (rating_b page) as [txt|]; [|inversion Htry; subst; exact Hnone].
destruct (float_of_str txt) as [r|]; [|inversion Htry; subst; exact Hnone].
destruct (r <? 5)%float; [|inversion Htry; subst; exact Hnone].
destruct (product_b page) as [name|]; [|inversion Htry; subst; exact Hnone].
destruct (collect_all_feedbacks fuel page TIME_DELTA tick) as [[l|x]|] eqn:Hcollect;
  [|inversion Htry; subst; exact Hnone|discriminate].
inversion Htry as [Hfor]. clear Htry.
apply for_feedbacks_appends in Hfor as (els & items & -> & Hrec & Hincl).
exists els, items. repeat split.
- eapply Forall2_impl; [|exact Hrec]. intros e it He. now exists name, code, r.
- apply while_loop_not_older in Hcollect; [|constructor].
  rewrite Forall_forall in *. intros e He. apply Hcollect, Hincl, He.
Qed.

Lemma handle_page_appends fuel url code tick DATA DATA' res :
  handle_page fuel url code tick DATA = Some (DATA', res) ->
  exists els items,
    DATA' = DATA ++ items /\
    Forall2 record_of els items /\
    Forall (not_older TIME_DELTA) els.
Proof.
unfold handle_page. destruct (get url) as [page|x].
- destruct (try_block fuel page code tick DATA) as [[D r']|] eqn:Htry;
    cbn [option_map]; [|discriminate].
  intros H. assert (except_TimeoutException (D, r') = (DATA', res)) as Heq by congruence.
  apply (f_equal fst) in Heq.
  rewrite except_TimeoutException_fst in Heq. simpl in Heq. subst D.
  exact (try_block_appends _ _ _ _ _ _ _ Htry).
- intros H; inversion H; subst.
  exists [], []. rewrite app_nil_r. repeat split; constructor.
Qed.

(** Where the output of the [try] block comes from: nothing is appended,
    or the page is rated below 5 and names its product, the paginator
    returned a list, and what is appended is the records of the reviews of
    that list the loop went through. *)
Lemma try_block_output fuel page code tick DATA DATA' res :
  try_block fuel page code tick DATA = Some (DATA', res) ->
  DATA' = DATA \/
  exists text r name l processed rest,
    rating_b page = Some text /\ float_of_str text = Some r /\
    (r <? 5)%float = true /\ product_b page = Some name /\
    collect_all_feedbacks fuel page TIME_DELTA tick = Some (Return l) /\
    l = processed ++ rest /\
    DATA' = DATA ++ flat_map (records_of name code r) processed /\
    match res with
    | Return _ => rest = []
    | Raise x => exists e rest', rest = e :: rest' /\
                                 read_feedback name code r e = Raise x
    end.
Proof.
unfold try_block. intros Htry.
destruct (rating_b page) as [text|]; [|inversion Htry; now left].
destruct (float_of_str text) as [r|] eqn:Hfloat; [|inversion Htry; now left].
destruct (r <? 5)%float eqn:Hlt; [|inversion Htry; now left].
destruct (product_b page) as [name|]; [|inversion Htry; now left].
destruct (collect_all_feedbacks fuel page TIME_DELTA tick) as [[l|x]|] eqn:Hcollect;
  [|inversion Htry; now left|discriminate].
inversion Htry as [Hfor]. clear Htry.
apply for_feedbacks_processed in Hfor as (processed & rest & Hl & HD & Hres).
right. exists text, r, name, l, processed, rest. now repeat split.
Qed.

Lemma handle_page_output fuel url code tick DATA DATA' res :
  handle_page fuel url code tick DATA = Some (DATA', res) ->
  DATA' = DATA \/
  exists page name r l processed rest,
    get url = Return page /\
    product_b page = Some name /\
    (exists text, rating_b page = Some text /\ float_of_str text = Some r) /\
    collect_all_feedbacks fuel page TIME_DELTA tick = Some (Return l) /\
    l = processed ++ rest /\
    DATA' = DATA ++ flat_map (records_of name code r) processed.
Proof.
unfold handle_page. destruct (get url) as [page|x] eqn:Hget.
- destruct (try_block fuel page code tick DATA) as [[D r']|] eqn:Htry;
    cbn [option_map]; [|discriminate].
  intros H. assert (except_TimeoutException (D, r') = (DATA', res)) as Heq by congruence.
  apply (f_equal fst) in Heq.
  rewrite except_TimeoutException_fst in Heq. simpl in Heq. subst D.
  apply try_block_output in Htry
    as [->|(text & r & name & l & processed & rest & Ht & Hf & _ & Hn & Hc & Hl & HD & _)];
    [now left|].
  right. exists page, name, r, l, processed, rest. repeat split; trivial.
  now exists text.
- intros H; inversion H; subst. now left.
Qed.

Lemma star_value_five c : star_value c = Some 5%nat -> c = "5"%string.
Proof.
unfold star_value. destruct c as [|a [|b c]]; try discriminate.
cbv zeta.
destruct ((48 <=? nat_of_ascii a) && (nat_of_ascii a <=? 57))%nat eqn:Hrange;
  [|discriminate].
intros H. injection H as Hval.
apply andb_prop in Hrange as [Hlo _]. apply Nat.leb_le in Hlo.
assert (nat_of_ascii a = 53%nat) as Ha by lia.
rewrite <- (ascii_nat_embedding a), Ha. reflexivity.
Qed.

(** The star field of the record of a review is what the class attribute
    of its rating child ends in. *)
Lemma records_of_star_field name code r e it :
  In it (records_of name code r e) -> star_field_of e it.
Proof.
unfold records_of. destruct (read_feedback name code r e) as [[it'|]|x] eqn:H;
  try contradiction.
intros [<-|[]].
apply read_feedback_Some in H as (Hstars & Hne & _).
unfold star_field_of. destruct (feedback_stars it') as [c|].
- apply read_stars_Some in Hstars as (cls & Hcls & Hlast).
  exists cls. repeat split; trivial.
  + now apply last_char_single with cls.
  + congruence.
- now apply read_stars_None.
Qed.

(** C1 (boundary exclusivity).  Every review the paginator returns has a
    date not older than [time] days before a clock reading, namely the one
    it was compared with: the list is the reviews scanned, each fresh at
    the reading of its own comparison, followed at most by a repetition of
    some of them.  A round that meets a first old review ends the run
    with the reviews before it retained and the rest dropped.  And what
    [handle_page] appends is the records of reviews of the list the
    paginator returned for the page, all of them within [TIME_DELTA]
    days. *)
Theorem boundary_exclusivity :
  (forall page time fuel tick l,
      collect_all_feedbacks fuel page time tick = Some (Return l) ->
      Forall (not_older time) l /\
      exists scanned again,
        l = scanned ++ again /\
        all_fresh time tick scanned /\
        incl again scanned) /\
  (forall page time fuel s pre x post,
      new_feedbacks_list s = pre ++ x :: post ->
      all_fresh time (ticks s) pre ->
      old_at time (ticks s + length pre) x ->
      while_loop (S fuel) page time s = Some (Return (feedbacks_list s ++ pre))) /\
  (forall fuel url code tick DATA DATA' res,
      handle_page fuel url code tick DATA = Some (DATA', res) ->
      DATA' = DATA \/
      exists page name r l processed rest,
        get url = Return page /\
        product_b page = Some name /\
        (exists text, rating_b page = Some text /\ float_of_str text = Some r) /\
        collect_all_feedbacks fuel page TIME_DELTA tick = Some (Return l) /\
        Forall (not_older TIME_DELTA) l /\
        l = processed ++ rest /\
        DATA' = DATA ++ flat_map (records_of name code r) processed).
Proof.
split; [|split].
- intros page time fuel tick l H. split.
  + apply while_loop_not_older in H; [exact H | constructor].
  + apply (while_loop_scanned now strptime page time tick fuel _ l) in H;
      [exact H | exact I | simpl; lia].
- intros page time fuel s pre x post. apply while_loop_border.
- intros fuel url code tick DATA DATA' res H.
  apply handle_page_output in H
    as [->|(page & name & r & l & processed & rest & Hget & Hn & Hr & Hc & Hl & HD)];
    [now left|].
  right. exists page, name, r, l, processed, rest. repeat split; trivial.
  apply while_loop_not_older in Hc; [exact Hc | constructor].
Qed.

(** C6 (perfect score).  When the rating text of the page reads as the
    float 5, [handle_page] returns with [DATA] as it was, whatever the
    listing holds and with no round of the paginator run (the answer does
    not depend on [fuel], not even on its being positive). *)
Theorem perfect_score_short_circuit fuel url code tick DATA page txt :
  get url = Return page ->
  rating_b page = Some txt ->
  float_of_str txt = Some 5%float ->
  handle_page fuel url code tick DATA = Some (DATA, Return tt).
Proof.
intros Hget Hrating Hfloat. unfold handle_page, try_block.
rewrite Hget, Hrating, Hfloat. reflexivity.
Qed.

(** C7, as the code has it.  Every record [handle_page] appends has a
    star field other than the character 5, hence a count below 5 whenever
    the field is a digit of the scale; and a review whose class attribute
    ends in 5 is passed over by the loop without a record. *)
Theorem five_star_reviews_filtered :
  (forall fuel url code tick DATA DATA' res,
      handle_page fuel url code tick DATA = Some (DATA', res) ->
      exists items,
        DATA' = DATA ++ items /\
        Forall (fun it =>
                  feedback_stars it <> Some "5"%string /\
                  forall c n, feedback_stars it = Some c ->
                              star_value c = Some n ->
                              (n <= 5)%nat -> (n < 5)%nat) items) /\
  (forall name code r e rest DATA,
      read_stars e = Return (Some "5"%string) ->
      for_feedbacks name code r (e :: rest) DATA
      = for_feedbacks name code r rest DATA).
Proof.
split.
- intros fuel url code tick DATA DATA' res H.
  apply handle_page_appends in H as (els & items & -> & Hrec & _).
  exists items. split; trivial.
  induction Hrec as [|e it els items (name & c0 & r & He) _ IH]; constructor; trivial.
  apply read_feedback_Some in He as (_ & Hne & _). split; trivial.
  intros c n Hc Hn Hle.
  destruct (Nat.eq_dec n 5) as [->|]; [|lia].
  apply star_value_five in Hn. congruence.
- intros name code r e rest DATA H. simpl.
  now rewrite (read_feedback_five name code r e H).
Qed.

(** C8, as the code has it.  Take a review whose star lookup gives
    [stars] (absent or a character) other than the five and whose header
    and body are each found or missing, among reviews whose lookups go
    through.  The loop ends normally and its output holds, at the place of
    the review, one record whose name, star and text fields are what the
    three lookups found, each [None] exactly when its own child is
    missing; and the text of that record shows a [None] field as the word
    None, between the same separators as a field that is present. *)
Theorem fields_read_independently name code r pre e post DATA stars :
  read_stars e = Return stars ->
  stars <> Some "5"%string ->
  found_or_missing (header_text e) ->
  found_or_missing (body_text e) ->
  Forall lookups_readable pre ->
  Forall lookups_readable post ->
  let it := {| feedback_name := found (header_text e);
               product_name := name;
               sku := code;
               feedback_stars := stars;
               feedback_text := found (body_text e);
               rating := r |} in
  for_feedbacks name code r (pre ++ e :: post) DATA
  = (DATA ++ flat_map (records_of name code r) pre
          ++ it :: flat_map (records_of name code r) post, Return tt) /\
  (stars = None <-> rating_class e = Raise NoSuchElementException) /\
  (found (header_text e) = None <-> header_text e = Raise NoSuchElementException) /\
  (found (body_text e) = None <-> body_text e = Raise NoSuchElementException) /\
  format_item it
  = (str_opt (found (header_text e)) ++ "/" ++ name ++ "/" ++ code ++ "/"
     ++ str_opt stars ++ "/" ++ str_opt (found (body_text e)) ++ "/"
     ++ str_of_float r)%string /\
  str_opt None = "None"%string.
Proof.
intros Hstars Hne Hheader Hbody Hpre Hpost it.
split; [|split; [|split; [|split; [|split]]]]; try reflexivity.
- rewrite (for_feedbacks_app name code r pre (e :: post) DATA Hpre).
  simpl. rewrite (read_feedback_fields name code r e stars Hstars Hne Hheader Hbody).
  rewrite (for_feedbacks_flat_map name code r post _ Hpost).
  now rewrite <- !app_assoc.
- rewrite <- read_stars_None, Hstars.
  split; [now intros -> | intros H; now inversion H].
- now apply found_None.
- now apply found_None.
Qed.

(** C9, as the code has it.  What [handle_page] appends is the records
    of reviews of the list the paginator returned for the page, and in the
    record of each of them the star field is absent, when the review has no
    rating child, or else the last character of that child's class
    attribute, a one-character string other than 5; nothing makes it a
    digit. *)
Theorem star_field_is_class_suffix fuel url code tick DATA DATA' res :
  handle_page fuel url code tick DATA = Some (DATA', res) ->
  DATA' = DATA \/
  exists page name r l processed rest,
    get url = Return page /\
    product_b page = Some name /\
    (exists text, rating_b page = Some text /\ float_of_str text = Some r) /\
    collect_all_feedbacks fuel page TIME_DELTA tick = Some (Return l) /\
    l = processed ++ rest /\
    DATA' = DATA ++ flat_map (records_of name code r) processed /\
    Forall (fun e => forall it, In it (records_of name code r e) ->
                                star_field_of e it) processed.
Proof.
intros H. apply handle_page_output in H
  as [->|(page & name & r & l & processed & rest & Hget & Hn & Hr & Hc & Hl & HD)];
  [now left|].
right. exists page, name, r, l, processed, rest. repeat split; trivial.
apply Forall_forall. intros e _ it. apply records_of_star_field.
Qed.

End HarvesterFacts.

(** The lookups of the sample reviews go through. *)
Ltac readable :=
  repeat first
    [ apply Forall_nil
    | apply Forall_cons
    | split
    | discriminate
    | (left; reflexivity)
    | (right; eexists; reflexivity) ].

(** A product rated 4.5 with two recent reviews, one of them of five
    stars, and an older one: one record is appended. *)
Example one_imperfect_recent_review :
  handle_page Sample.now Sample.strptime Sample.float_of_str
              (Sample.get (Sample.fixed_page "4.5"
                             [Sample.recent; Sample.praise; Sample.stale]))
              1 "https://shop/A1/feedbacks" "A1" 0 []
  = Some ([Sample.relayed (Some "3"%string)], Return tt).
Proof. reflexivity. Qed.

Lemma boundary_exclusivity_witness :
  (Forall (not_older Sample.now Sample.strptime TIME_DELTA) [Sample.recent; Sample.praise] /\
   exists scanned again,
     [Sample.recent; Sample.praise] = scanned ++ again /\
     all_fresh Sample.now Sample.strptime TIME_DELTA 0 scanned /\
     incl again scanned) /\
  while_loop Sample.now Sample.strptime 1
             (Sample.fixed_page "4.5" [Sample.recent; Sample.praise; Sample.stale; Sample.recent])
             TIME_DELTA
             (initial (Sample.fixed_page "4.5"
                         [Sample.recent; Sample.praise; Sample.stale; Sample.recent]) 0)
  = Some (Return [Sample.recent; Sample.praise]) /\
  ([Sample.relayed (Some "3"%string)] = [] \/
   exists page name r l processed rest,
     Sample.get (Sample.fixed_page "4.5"
                   [Sample.recent; Sample.praise; Sample.stale; Sample.recent])
                "https://shop/A1/feedbacks" = Return page /\
     product_b page = Some name /\
     (exists text, rating_b page = Some text /\ Sample.float_of_str text = Some r) /\
     collect_all_feedbacks Sample.now Sample.strptime 1 page TIME_DELTA 0
     = Some (Return l) /\
     Forall (not_older Sample.now Sample.strptime TIME_DELTA) l /\
     l = processed ++ rest /\
     [Sample.relayed (Some "3"%string)]
     = [] ++ flat_map (records_of name "A1" r) processed).
Proof.
pose (page := Sample.fixed_page "4.5"
                [Sample.recent; Sample.praise; Sample.stale; Sample.recent]).
destruct (boundary_exclusivity Sample.now Sample.strptime Sample.float_of_str
                               (Sample.get page)) as (Hkept & Hborder & Hrecords).
split; [|split].
- apply (Hkept page TIME_DELTA 1%nat 0%nat). reflexivity.
- apply (Hborder page TIME_DELTA 0%nat (initial page 0)
                 [Sample.recent; Sample.praise] Sample.stale [Sample.recent]).
  + reflexivity.
  + repeat split.
  + reflexivity.
- apply (Hrecords 1%nat "https://shop/A1/feedbacks"%string "A1"%string 0%nat []
                  [Sample.relayed (Some "3"%string)] (Return tt)).
  reflexivity.
Defined.

Lemma perfect_score_short_circuit_witness :
  handle_page Sample.now Sample.strptime Sample.float_of_str
              (Sample.get (Sample.fixed_page "5.0" [Sample.recent; Sample.bare]))
              0 "https://shop/A2/feedbacks" "A2" 0 []
  = Some ([], Return tt).
Proof.
apply (perfect_score_short_circuit Sample.now Sample.strptime Sample.float_of_str
         (Sample.get (Sample.fixed_page "5.0" [Sample.recent; Sample.bare]))
         0%nat "https://shop/A2/feedbacks"%string "A2"%string 0%nat []
         (Sample.fixed_page "5.0" [Sample.recent; Sample.bare]) "5.0"%string);
  reflexivity.
Defined.

Lemma five_star_reviews_filtered_witness :
  (exists items,
      [Sample.relayed (Some "3"%string)] = [] ++ items /\
      Forall (fun it =>
                feedback_stars it <> Some "5"%string /\
                forall c n, feedback_stars it = Some c ->
                            star_value c = Some n ->
                            (n <= 5)%nat -> (n < 5)%nat) items) /\
  for_feedbacks "Lamp" "A1" 4.5 [Sample.praise; Sample.recent] []
  = for_feedbacks "Lamp" "A1" 4.5 [Sample.recent] [].
Proof.
pose (page := Sample.fixed_page "4.5" [Sample.recent; Sample.praise]).
destruct (five_star_reviews_filtered Sample.now Sample.strptime Sample.float_of_str
                                     (Sample.get page)) as (Hkept & Hskip).
split.
- apply (Hkept 2%nat "https://shop/A1/feedbacks"%string "A1"%string 0%nat []
               [Sample.relayed (Some "3"%string)] (Return tt)).
  reflexivity.
- apply (Hskip "Lamp"%string "A1"%string 4.5%float Sample.praise [Sample.recent] []).
  reflexivity.
Defined.

Lemma fields_read_independently_witness :
  for_feedbacks "Lamp" "A1" 4.5 ([Sample.praise] ++ Sample.bare :: [Sample.recent]) []
  = ([] ++ flat_map (records_of "Lamp" "A1" 4.5) [Sample.praise]
        ++ Scenario.bare_record
        :: flat_map (records_of "Lamp" "A1" 4.5) [Sample.recent], Return tt) /\
  format_item Scenario.str_of_float Scenario.bare_record
  = "None/Lamp/A1/None/Too loud/4.5"%string.
Proof.
destruct (fields_read_independently Scenario.str_of_float
            "Lamp"%string "A1"%string 4.5%float
            [Sample.praise] Sample.bare [Sample.recent] [] None)
  as (Happend & _ & _ & _ & Htext & _).
- reflexivity.
- discriminate.
- now left.
- right. now exists "Too loud"%string.
- readable.
- readable.
- split; [exact Happend | exact Htext].
Defined.

Lemma star_field_is_class_suffix_witness :
  [Sample.relayed (Some "3"%string)] = [] \/
  exists page name r l processed rest,
    Sample.get (Sample.fixed_page "4.5" [Sample.recent; Sample.praise])
               "https://shop/A1/feedbacks" = Return page /\
    product_b page = Some name /\
    (exists text, rating_b page = Some text /\ Sample.float_of_str text = Some r) /\
    collect_all_feedbacks Sample.now Sample.strptime 2 page TIME_DELTA 0
    = Some (Return l) /\
    l = processed ++ rest /\
    [Sample.relayed (Some "3"%string)]
    = [] ++ flat_map (records_of name "A1" r) processed /\
    Forall (fun e => forall it, In it (records_of name "A1" r e) ->
                                star_field_of e it) processed.
Proof.
apply (star_field_is_class_suffix Sample.now Sample.strptime Sample.float_of_str
         (Sample.get (Sample.fixed_page "4.5" [Sample.recent; Sample.praise]))
         2%nat "https://shop/A1/feedbacks"%string "A1"%string 0%nat []
         [Sample.relayed (Some "3"%string)] (Return tt)).
reflexivity.
Defined.

(** C7 as stated fails on a review whose class attribute ends in 9: the
    record is appended and its star field is not below 5. *)
Lemma nine_star_review_relayed :
  handle_page Sample.now Sample.strptime Sample.float_of_str
              (Sample.get (Sample.fixed_page "4.5" [Sample.nine]))
              2 "https://shop/A1/feedbacks" "A1" 0 []
  = Some ([Sample.relayed (Some "9"%string)], Return tt) /\
  ~ stars_below_max (Sample.relayed (Some "9"%string)).
Proof.
split; [reflexivity|].
intros H. destruct (H "9"%string eq_refl) as (n & Hn & Hlt).
vm_compute in Hn. inversion Hn; subst. lia.
Qed.

(** C8 as stated fails on a review without header and without rating
    child: its record is appended, and the text of the record shows both
    missing fields as the word None instead of leaving them out. *)
Lemma missing_fields_shown_as_None :
  for_feedbacks "Lamp" "A1" 4.5 [Sample.bare] []
  = ([Scenario.bare_record], Return tt) /\
  format_item Scenario.str_of_float Scenario.bare_record
  = "None/Lamp/A1/None/Too loud/4.5"%string /\
  ~ omits_missing_fields Scenario.str_of_float Scenario.bare_record.
Proof.
split; [reflexivity|]. split; [reflexivity|].
unfold omits_missing_fields. vm_compute. discriminate.
Qed.

(** C9 as stated fails on a review whose class attribute ends in the
    class name: the star field of the record is the letter g. *)
Lemma class_name_suffix_relayed :
  handle_page Sample.now Sample.strptime Sample.float_of_str
              (Sample.get (Sample.fixed_page "4.5" [Sample.unrated]))
              2 "https://shop/A1/feedbacks" "A1" 0 []
  = Some ([Sample.relayed (Some "g"%string)], Return tt) /\
  ~ stars_in_range (Sample.relayed (Some "g"%string)).
Proof.
split; [reflexivity|].
intros [H|(c & n & Hc & Hn & _)]; [discriminate|].
inversion Hc; subst. discriminate.
Qed.

(** * Properties of the dispatcher *)

Section DispatcherFacts.

Variable CHANNEL_ID : string.
Variable send_message : nat -> string -> send_answer.

#[local] Abbreviation for_messages := (for_messages CHANNEL_ID send_message).
#[local] Abbreviation sent_data := (sent_data CHANNEL_ID send_message).

Lemma sends_app a b : sends (a ++ b) = sends a ++ sends b.
Proof. apply flat_map_app. Qed.

Lemma sleeps_app a b : sleeps (a ++ b) = sleeps a ++ sleeps b.
Proof. apply flat_map_app. Qed.

Lemma on_api_error_silent error_code str_err :
  sends (on_api_error error_code str_err) = [] /\
  sleeps (on_api_error error_code str_err) = [].
Proof. unfold on_api_error. destruct (error_code =? 429); split; reflexivity. Qed.

(** The loop hands each message to the channel once, in order, up to a
    failure it does not catch, and never pauses. *)
Lemma for_messages_once DATA : forall calls acts ok,
  for_messages calls DATA = (acts, ok) ->
  sleeps acts = [] /\
  exists sent, sends acts = firstn sent DATA /\ (ok = true -> sends acts = DATA).
Proof.
induction DATA as [|message rest IH]; intros calls acts ok H; simpl in H.
- inversion H; subst. split; trivial. exists 0%nat. split; reflexivity.
- destruct (send_message calls message) as [|error_code str_err|].
  + destruct (for_messages (S calls) rest) as [acts' ok'] eqn:Hrest.
    inversion H; subst. destruct (IH _ _ _ Hrest) as (Hs & sent & Hsent & Hall).
    split; [exact Hs|]. exists (S sent). simpl.
    split; [now rewrite Hsent | intros E; now rewrite (Hall E)].
  + destruct (for_messages (S calls) rest) as [acts' ok'] eqn:Hrest.
    inversion H; subst. destruct (IH _ _ _ Hrest) as (Hs & sent & Hsent & Hall).
    destruct (on_api_error_silent error_code str_err) as [Hq1 Hq2].
    split.
    * change (sleeps (on_api_error error_code str_err ++ acts') = []).
      now rewrite sleeps_app, Hq2, Hs.
    * exists (S sent).
      change (sends (SendMessage CHANNEL_ID message
                       :: on_api_error error_code str_err ++ acts'))
        with (message :: sends (on_api_error error_code str_err ++ acts')).
      rewrite sends_app, Hq1. simpl.
      split; [now rewrite Hsent | intros E; now rewrite (Hall E)].
  + inversion H; subst. split; trivial. exists 1%nat.
    split; [reflexivity | discriminate].
Qed.

(** X11 (one attempt, no pause).  Whatever the channel answers,
    [sent_data] takes no pause, and the texts it hands to the channel are
    an initial part of [DATA] in order: no message is attempted twice. *)
Lemma sent_data_once DATA :
  sleeps (sent_data DATA) = [] /\
  exists sent, sends (sent_data DATA) = firstn sent DATA.
Proof.
unfold sent_data.
destruct (for_messages 0 DATA) as [acts ok] eqn:H.
destruct (for_messages_once DATA _ _ _ H) as (Hs & sent & Hsent & _).
destruct ok.
- split; [now rewrite sleeps_app, Hs|].
  exists sent. rewrite sends_app. simpl. now rewrite app_nil_r.
- split; trivial. now exists sent.
Qed.

End DispatcherFacts.

(** C3, at two messages of which the first is answered 429: the first
    message is handed to the channel once, the line announcing a retry is
    printed, and the loop goes on to the second message; no pause is taken
    and the first message is never sent again. *)
Example rate_limited_message_not_retried :
  sent_data "@reviews" Sample.limited_once ["first"; "second"]%string
  = [SendMessage "@reviews" "first";
     Print "Rate limit exceeded. Retrying after 429 seconds...";
     SendMessage "@reviews" "second";
     StopPolling; LogInfo "Finished"; SysExit] /\
  sleeps (sent_data "@reviews" Sample.limited_once ["first"; "second"]%string) = [] /\
  sends (sent_data "@reviews" Sample.limited_once ["first"; "second"]%string)
  = ["first"; "second"]%string.
Proof. repeat split. Qed.

(** * Further properties of the paginator *)

Section PaginatorMore.

Variable now : nat -> datetime.
Variable strptime : string -> option datetime.

#[local] Abbreviation find_border := (find_border now strptime).
#[local] Abbreviation iteration := (iteration now strptime).
#[local] Abbreviation while_loop := (while_loop now strptime).
#[local] Abbreviation collect_all_feedbacks := (collect_all_feedbacks now strptime).
#[local] Abbreviation too_old := (too_old now strptime).
#[local] Abbreviation fresh_at := (fresh_at now strptime).
#[local] Abbreviation old_at := (old_at now strptime).
#[local] Abbreviation all_fresh := (all_fresh now strptime).
#[local] Abbreviation round := (round now strptime).

Lemma revealed_S page n : revealed page (S n) = revealed page n ++ batch page n.
Proof.
unfold revealed. rewrite seq_S, map_app, concat_app. simpl.
now rewrite app_nil_r.
Qed.

(** How far the run has got: the retained reviews are the batches
    revealed so far and the batch under scan is the next one. *)
Lemma round_revealed page time s s' :
  round page time s (Next s') ->
  on_track page s -> feedbacks_list s = revealed page (clicks s) ->
  feedbacks_list s' = revealed page (clicks s').
Proof.
intros Hr [Hbatch _] Hkept.
inversion Hr as [| | | |first others Hnew _ _ Hs']; subst s'; simpl.
now rewrite revealed_S, Hkept, Hbatch.
Qed.

(** What a run can return, from a state on track. *)
Lemma while_loop_returns page time fuel : forall s l,
  on_track page s -> feedbacks_list s = revealed page (clicks s) ->
  while_loop fuel page time s = Some (Return l) ->
  exists n pre post,
    batch page n = pre ++ post /\
    (l = revealed page n ++ pre \/
     (exists first others,
         batch page n = first :: others /\
         click page n (last others first) = Some ElementNotInteractableException) /\
     l = (revealed page n ++ batch page n) ++ batch page n).
Proof.
induction fuel as [|fuel IH]; intros s l Htrack Hkept H; simpl in H; [discriminate|].
pose proof (iteration_round now strptime page time s) as Hr.
destruct (iteration page time s) as [s'|[l'|e]] eqn:Hit.
- destruct (round_on_track now strptime page time s s' Hr Htrack) as [Htrack' _].
  apply (IH s' l Htrack'); trivial.
  now apply round_revealed with time s.
- inversion H; subst l'. clear H. destruct Htrack as [Hbatch _].
  exists (clicks s). inversion Hr as [Hnil| |pre x post Hsplit _ _|first others Hnew _ Hclick|].
  + exists [], (batch page (clicks s)). split; trivial. left.
    now rewrite app_nil_r, Hkept.
  + exists pre, (x :: post). rewrite <- Hbatch. split; trivial. left. now rewrite Hkept.
  + exists (batch page (clicks s)), []. rewrite app_nil_r. split; trivial. right.
    rewrite <- Hbatch, <- Hkept. split; trivial. now exists first, others.
- discriminate.
Qed.

Lemma revealed_initial page tick :
  feedbacks_list (initial page tick) = revealed page (clicks (initial page tick)).
Proof. reflexivity. Qed.

(** X1 (what is returned).  A list the paginator returns is made of the
    batches in the order of their reveal: all the batches before some
    click count [n] followed by a prefix of batch [n]; or, when the click
    after [n] clicks raised [ElementNotInteractableException], those
    batches followed by batch [n] twice. *)
Theorem returned_list_is_batches_in_order page time fuel tick l :
  collect_all_feedbacks fuel page time tick = Some (Return l) ->
  exists n pre post,
    batch page n = pre ++ post /\
    (l = revealed page n ++ pre \/
     (exists first others,
         batch page n = first :: others /\
         click page n (last others first) = Some ElementNotInteractableException) /\
     l = (revealed page n ++ batch page n) ++ batch page n).
Proof.
apply while_loop_returns.
- apply initial_on_track.
- apply revealed_initial.
Qed.

Lemma fresh_at_since time tick k e :
  (forall i j, (i <= j)%nat -> now i <= now j) ->
  (tick <= k)%nat -> fresh_at time k e ->
  exists d, feedback_date strptime e = Return d /\
            now tick - time * us_per_day <= d.
Proof.
intros Hmono Hle H. apply bind_Return in H as (d & Hd & H).
apply bind_Return in H as (limit & Hl & H).
exists d. split; trivial.
apply threshold_value in Hl. inversion H as [Hcmp]. apply Z.ltb_ge in Hcmp.
specialize (Hmono tick k Hle). lia.
Qed.

Lemma all_fresh_since time tick l : forall k,
  (forall i j, (i <= j)%nat -> now i <= now j) ->
  (tick <= k)%nat -> all_fresh time k l ->
  Forall (fun e => exists d, feedback_date strptime e = Return d /\
                             now tick - time * us_per_day <= d) l.
Proof.
induction l as [|e l IH]; intros k Hmono Hle H; constructor.
- apply fresh_at_since with k; trivial. apply H.
- apply (IH (S k)); trivial; [lia | apply H].
Qed.

Lemma round_since page time tick s r :
  (forall i j, (i <= j)%nat -> now i <= now j) ->
  round page time s r ->
  (tick <= ticks s)%nat ->
  Forall (fun e => exists d, feedback_date strptime e = Return d /\
                             now tick - time * us_per_day <= d) (feedbacks_list s) ->
  match r with
  | Stop (Return l) =>
      Forall (fun e => exists d, feedback_date strptime e = Return d /\
                                 now tick - time * us_per_day <= d) l
  | Stop (Raise _) => True
  | Next s' =>
      (tick <= ticks s')%nat /\
      Forall (fun e => exists d, feedback_date strptime e = Return d /\
                                 now tick - time * us_per_day <= d) (feedbacks_list s')
  end.
Proof.
intros Hmono Hr Hle Hkept. destruct Hr; simpl; trivial.
- apply Forall_app; split; trivial. now apply all_fresh_since with (ticks s).
- repeat (apply Forall_app; split); trivial; now apply all_fresh_since with (ticks s).
- split; [lia|]. apply Forall_app; split; trivial.
  now apply all_fresh_since with (ticks s).
Qed.

Lemma while_loop_since page time tick fuel : forall s l,
  (forall i j, (i <= j)%nat -> now i <= now j) ->
  (tick <= ticks s)%nat ->
  Forall (fun e => exists d, feedback_date strptime e = Return d /\
                             now tick - time * us_per_day <= d) (feedbacks_list s) ->
  while_loop fuel page time s = Some (Return l) ->
  Forall (fun e => exists d, feedback_date strptime e = Return d /\
                             now tick - time * us_per_day <= d) l.
Proof.
induction fuel as [|fuel IH]; intros s l Hmono Hle Hkept H; simpl in H; [discriminate|].
pose proof (round_since page time tick s _ Hmono
              (iteration_round now strptime page time s) Hle Hkept) as Hr.
destruct (iteration page time s) as [s'|[l'|e]].
- destruct Hr as [Hle' Hkept']. now apply IH with s'.
- now inversion H; subst.
- discriminate.
Qed.

(** X2 (age measured from the start of the run).  With a clock that never
    runs backwards, every review the paginator returns has a date not
    older than [time] days before the reading the run started with. *)
Theorem returned_reviews_within_cutoff_of_start page time fuel tick l :
  (forall i j, (i <= j)%nat -> now i <= now j) ->
  collect_all_feedbacks fuel page time tick = Some (Return l) ->
  Forall (fun e => exists d, feedback_date strptime e = Return d /\
                             now tick - time * us_per_day <= d) l.
Proof.
intros Hmono H.
apply (while_loop_since page time tick fuel (initial page tick) l Hmono);
  [apply Nat.le_refl | constructor | exact H].
Qed.

Lemma find_border_raise time pre x post e : forall tick index,
  all_fresh time tick pre ->
  too_old time (tick + length pre) x = Raise e ->
  find_border time tick index (pre ++ x :: post) = Raise e.
Proof.
induction pre as [|a pre IH]; intros tick index Hpre Hx; simpl in *.
- rewrite Nat.add_0_r in Hx. now rewrite Hx.
- destruct Hpre as [Ha Hpre]. red in Ha. rewrite Ha. simpl.
  apply IH; trivial.
  replace (S tick + length pre)%nat with (tick + S (length pre))%nat by lia.
  exact Hx.
Qed.

Lemma while_loop_raise page time fuel s pre x post e :
  new_feedbacks_list s = pre ++ x :: post ->
  all_fresh time (ticks s) pre ->
  too_old time (ticks s + length pre) x = Raise e ->
  while_loop (S fuel) page time s = Some (Raise e).
Proof.
intros Hsplit Hpre Hx.
change (while_loop (S fuel) page time s)
  with (match iteration page time s with
        | Stop r => Some r
        | Next s' => while_loop fuel page time s'
        end).
unfold iteration.
destruct (new_feedbacks_list s) as [|first others];
  [destruct pre; discriminate|].
now rewrite Hsplit, (find_border_raise time pre x post e (ticks s) 0 Hpre Hx).
Qed.

(** X3 (unreadable date).  When the scan of a batch meets, before any
    old review, a review whose date cannot be read (no [feedback__date]
    child, no [content] attribute, or a text [strptime] rejects), the call
    raises that exception and returns nothing of what it had retained. *)
Theorem unreadable_date_raises page time fuel s pre x post e :
  new_feedbacks_list s = pre ++ x :: post ->
  all_fresh time (ticks s) pre ->
  feedback_date strptime x = Raise e ->
  while_loop (S fuel) page time s = Some (Raise e).
Proof.
intros Hsplit Hpre Hx.
apply while_loop_raise with pre x post; trivial.
unfold too_old. now rewrite Hx.
Qed.

Lemma threshold_overflow time tick :
  999999999 < Z.abs time \/ now tick < time * us_per_day ->
  threshold now tick time = Raise OverflowError.
Proof.
intros H. unfold threshold, timedelta.
destruct (Z.abs time <=? 999999999) eqn:Hdays; trivial. simpl.
unfold datetime_sub.
destruct (0 <=? now tick - time * us_per_day) eqn:Hlow; trivial.
apply Z.leb_le in Hdays, Hlow. lia.
Qed.

(** X4 (cutoff out of range).  With a cutoff of more than 999999999 days,
    or one that reaches before the first representable date, an empty
    listing is still answered by the empty list, and a listing whose
    first review has a readable date makes the call raise
    [OverflowError]. *)
Theorem cutoff_out_of_range page time fuel tick :
  999999999 < Z.abs time \/ now tick < time * us_per_day ->
  (comments__item page 0 = [] ->
   collect_all_feedbacks (S fuel) page time tick = Some (Return [])) /\
  (forall x rest d,
      comments__item page 0 = x :: rest ->
      feedback_date strptime x = Return d ->
      collect_all_feedbacks (S fuel) page time tick = Some (Raise OverflowError)).
Proof.
intros Hrange. split.
- intros Hnil. unfold collect_all_feedbacks.
  change (while_loop (S fuel) page time (initial page tick))
    with (match iteration page time (initial page tick) with
          | Stop r => Some r
          | Next s' => while_loop fuel page time s'
          end).
  unfold iteration. simpl. now rewrite Hnil.
- intros x rest d Hnew Hd.
  apply (while_loop_raise page time fuel (initial page tick) [] x rest); trivial.
  + exact I.
  + unfold too_old. rewrite Hd. simpl. rewrite Nat.add_0_r.
    now rewrite (threshold_overflow time _ Hrange).
Qed.

End PaginatorMore.

Lemma returned_list_is_batches_in_order_witness :
  exists n pre post,
    batch Scenario.growing_once n = pre ++ post /\
    ([Sample.recent; Sample.bare]
     = revealed Scenario.growing_once n ++ pre \/
     (exists first others,
         batch Scenario.growing_once n = first :: others /\
         click Scenario.growing_once n (last others first)
         = Some ElementNotInteractableException) /\
     [Sample.recent; Sample.bare]
     = (revealed Scenario.growing_once n ++ batch Scenario.growing_once n)
         ++ batch Scenario.growing_once n).
Proof.
apply (returned_list_is_batches_in_order Sample.now Sample.strptime
         Scenario.growing_once TIME_DELTA 2 0 [Sample.recent; Sample.bare]).
reflexivity.
Defined.

Lemma returned_reviews_within_cutoff_of_start_witness :
  Forall (fun e => exists d, feedback_date Sample.strptime e = Return d /\
                             Sample.now 0 - TIME_DELTA * us_per_day <= d)
         [Sample.recent; Sample.bare].
Proof.
apply (returned_reviews_within_cutoff_of_start Sample.now Sample.strptime
         Scenario.growing_once TIME_DELTA 2 0 [Sample.recent; Sample.bare]).
- intros i j Hle. unfold Sample.now, Sample.second. lia.
- reflexivity.
Defined.

Lemma unreadable_date_raises_witness :
  while_loop Sample.now Sample.strptime 1
             (Sample.fixed_page "4.5" [Sample.recent; Scenario.undated; Sample.stale])
             TIME_DELTA
             (initial (Sample.fixed_page "4.5"
                         [Sample.recent; Scenario.undated; Sample.stale]) 0)
  = Some (Raise NoSuchElementException).
Proof.
apply (unreadable_date_raises Sample.now Sample.strptime
         (Sample.fixed_page "4.5" [Sample.recent; Scenario.undated; Sample.stale])
         TIME_DELTA 0
         (initial (Sample.fixed_page "4.5"
                     [Sample.recent; Scenario.undated; Sample.stale]) 0)
         [Sample.recent] Scenario.undated [Sample.stale] NoSuchElementException).
- reflexivity.
- repeat split.
- reflexivity.
Defined.

Lemma cutoff_out_of_range_witness :
  collect_all_feedbacks Sample.now Sample.strptime 1
                        (Sample.fixed_page "4.5" []) 1000000000 0
  = Some (Return []) /\
  collect_all_feedbacks Sample.now Sample.strptime 1
                        (Sample.fixed_page "4.5" [Sample.recent]) 1000000000 0
  = Some (Raise OverflowError).
Proof.
split.
- apply (proj1 (cutoff_out_of_range Sample.now Sample.strptime
                  (Sample.fixed_page "4.5" []) 1000000000 0 0
                  (or_introl eq_refl))).
  reflexivity.
- apply (proj2 (cutoff_out_of_range Sample.now Sample.strptime
                  (Sample.fixed_page "4.5" [Sample.recent]) 1000000000 0 0
                  (or_introl eq_refl))
               Sample.recent [] (738680 * us_per_day + 12 * 3600 * Sample.second));
    reflexivity.
Defined.

(** * Further properties of the page handler *)

Section HarvesterMore.

Variable now : nat -> datetime.
Variable strptime : string -> option datetime.
Variable float_of_str : string -> option float.
Variable get : string -> result Page.

#[local] Abbreviation collect_all_feedbacks := (collect_all_feedbacks now strptime).
#[local] Abbreviation handle_page := (handle_page now strptime float_of_str get).
#[local] Abbreviation try_block := (try_block now strptime float_of_str).

Lemma last_char_app p a :
  last_char (p ++ String a EmptyString) = Return (String a EmptyString).
Proof.
induction p as [|b p IH]; simpl; trivial.
rewrite IH. destruct p; reflexivity.
Qed.

Lemma last_char_inv s c :
  last_char s = Return c ->
  exists p a, s = (p ++ String a EmptyString)%string /\ c = String a EmptyString.
Proof.
induction s as [|b s IH]; simpl; [discriminate|].
destruct s as [|b' s].
- intros H; inversion H; subst. now exists EmptyString, b.
- intros H. destruct (IH H) as (p & a & Hs & Hc).
  exists (String b p), a. simpl. now rewrite Hs.
Qed.

Lemma for_feedbacks_raise name code r pre e post x : forall DATA,
  Forall lookups_readable pre ->
  read_feedback name code r e = Raise x ->
  for_feedbacks name code r (pre ++ e :: post) DATA
  = (DATA ++ flat_map (records_of name code r) pre, Raise x).
Proof.
intros DATA Hpre He. rewrite (for_feedbacks_app name code r pre _ DATA Hpre).
simpl. now rewrite He.
Qed.

Lemma try_block_product fuel page code tick DATA DATA' res :
  try_block fuel page code tick DATA = Some (DATA', res) ->
  exists items,
    DATA' = DATA ++ items /\
    Forall (fun it =>
              sku it = code /\
              product_b page = Some (product_name it) /\
              exists text,
                rating_b page = Some text /\
                float_of_str text = Some (rating it) /\
                (rating it <? 5)%float = true) items.
Proof.
assert (exists items : list feedback_data_item,
           DATA = DATA ++ items /\
           Forall (fun it =>
                     sku it = code /\
                     product_b page = Some (product_name it) /\
                     exists text,
                       rating_b page = Some text /\
                       float_of_str text = Some (rating it) /\
                       (rating it <? 5)%float = true) items) as Hnone
  by (exists []; rewrite app_nil_r; split; [reflexivity | constructor]).
unfold try_block. intros Htry.
destruct (rating_b page) as [text|]; [|inversion Htry; subst; exact Hnone].
destruct (float_of_str text) as [r|] eqn:Hfloat; [|inversion Htry; subst; exact Hnone].
destruct (r <? 5)%float eqn:Hlt; [|inversion Htry; subst; exact Hnone].
destruct (product_b page) as [name|]; [|inversion Htry; subst; exact Hnone].
destruct (collect_all_feedbacks fuel page TIME_DELTA tick) as [[l|x]|];
  [|inversion Htry; subst; exact Hnone|discriminate].
inversion Htry as [Hfor]. clear Htry.
apply for_feedbacks_appends in Hfor as (els & items & -> & Hrec & _).
exists items. split; trivial.
induction Hrec as [|e it els items He _ IH]; constructor; trivial.
apply read_feedback_Some in He as (_ & _ & _ & _ & -> & -> & ->).
repeat split. exists text. now repeat split.
Qed.

(** X5 (product fields).  Every record a call of [handle_page] appends
    carries the [sku] of the call, the product name shown on the page and
    the rating read from the page, and that rating is below 5. *)
Theorem records_carry_product_fields fuel url code tick DATA DATA' res page :
  get url = Return page ->
  handle_page fuel url code tick DATA = Some (DATA', res) ->
  exists items,
    DATA' = DATA ++ items /\
    Forall (fun it =>
              sku it = code /\
              product_b page = Some (product_name it) /\
              exists text,
                rating_b page = Some text /\
                float_of_str text = Some (rating it) /\
                (rating it <? 5)%float = true) items.
Proof.
intros Hget. unfold handle_page. rewrite Hget.
destruct (try_block fuel page code tick DATA) as [[D r']|] eqn:Htry;
  cbn [option_map]; [|discriminate].
intros H. assert (except_TimeoutException (D, r') = (DATA', res)) as Heq by congruence.
apply (f_equal fst) in Heq.
rewrite except_TimeoutException_fst in Heq. simpl in Heq. subst D.
exact (try_block_product _ _ _ _ _ _ _ Htry).
Qed.

(** X6 (the harvest of a page).  Take a page rated below 5 that shows
    its product name, for which the paginator returns the list [l], every
    review of [l] having lookups that go through (each child found or
    missing, no empty class attribute).  Then [handle_page] returns
    normally and appends, in the order of [l], one record for each review
    of [l] that is not dropped as a five-star one. *)
Theorem harvest_keeps_order fuel url code tick DATA page text r name l :
  get url = Return page ->
  rating_b page = Some text ->
  float_of_str text = Some r ->
  (r <? 5)%float = true ->
  product_b page = Some name ->
  collect_all_feedbacks fuel page TIME_DELTA tick = Some (Return l) ->
  Forall lookups_readable l ->
  handle_page fuel url code tick DATA
  = Some (DATA ++ flat_map (records_of name code r) l, Return tt).
Proof.
intros Hget Hrating Hfloat Hlt Hname Hcollect Hl.
unfold handle_page, try_block.
rewrite Hget, Hrating, Hfloat, Hlt, Hname, Hcollect.
now rewrite (for_feedbacks_flat_map name code r l DATA Hl).
Qed.

(** X7 (empty class attribute).  When a review has a rating child whose
    class attribute is empty, the loop raises [IndexError] at that review:
    the records of the reviews before it, whose lookups went through, stay
    in [DATA] and the reviews after it are not looked at. *)
Theorem empty_class_stops_the_loop name code r pre e post DATA :
  Forall lookups_readable pre ->
  rating_class e = Return EmptyString ->
  for_feedbacks name code r (pre ++ e :: post) DATA
  = (DATA ++ flat_map (records_of name code r) pre, Raise IndexError).
Proof.
intros Hpre He. apply for_feedbacks_raise; trivial.
unfold read_feedback, read_stars. now rewrite He.
Qed.

(** X8 (timeouts).  A page whose rating never shows leaves [DATA] as it
    was and [handle_page] returns normally; and [handle_page] raises
    [TimeoutException] only when the navigation itself did, with [DATA]
    untouched. *)
Theorem timeouts_inside_are_swallowed fuel url code tick DATA :
  (forall page,
      get url = Return page -> rating_b page = None ->
      handle_page fuel url code tick DATA = Some (DATA, Return tt)) /\
  (forall DATA',
      handle_page fuel url code tick DATA = Some (DATA', Raise TimeoutException) ->
      get url = Raise TimeoutException /\ DATA' = DATA).
Proof.
split.
- intros page Hget Hrating. unfold handle_page, try_block.
  now rewrite Hget, Hrating.
- intros DATA'. unfold handle_page. destruct (get url) as [page|x].
  + destruct (try_block fuel page code tick DATA) as [[D [u|[]]]|];
      cbn [option_map except_TimeoutException]; discriminate.
  + intros H; inversion H; subst. now split.
Qed.

(** X9 (which reviews are dropped).  A review is passed over without a
    record exactly when it has a rating child whose class attribute ends
    in the character 5, whatever comes before that character. *)
Theorem dropped_iff_class_ends_in_five name code r e :
  read_feedback name code r e = Return None <->
  exists prefix, rating_class e = Return (prefix ++ "5")%string.
Proof.
split.
- unfold read_feedback. intros H.
  apply bind_Return in H as (stars & Hstars & H).
  destruct stars as [c|].
  + destruct (String.eqb_spec c "5") as [->|].
    * apply read_stars_Some in Hstars as (cls & Hcls & Hlast).
      apply last_char_inv in Hlast as (p & a & -> & Ha).
      exists p. now rewrite Hcls, <- Ha.
    * apply bind_Return in H as (author & _ & H).
      apply bind_Return in H as (body & _ & H). discriminate.
  + apply bind_Return in H as (author & _ & H).
    apply bind_Return in H as (body & _ & H). discriminate.
- intros [p Hcls]. apply read_feedback_five.
  unfold read_stars. rewrite Hcls.
  change ("5"%string) with (String "5"%char EmptyString).
  now rewrite last_char_app.
Qed.

(** X14 (what a failing call leaves behind).  When [handle_page] raises
    [x], either [DATA] is as it was before the call, or the page was got,
    the paginator returned a list, the lookups of one of its reviews
    raised [x], and [DATA] has grown by exactly the records of the reviews
    before that one, in their order. *)
Theorem failure_keeps_earlier_records fuel url code tick DATA DATA' x :
  handle_page fuel url code tick DATA = Some (DATA', Raise x) ->
  DATA' = DATA \/
  exists page name r before e after,
    get url = Return page /\
    collect_all_feedbacks fuel page TIME_DELTA tick
    = Some (Return (before ++ e :: after)) /\
    read_feedback name code r e = Raise x /\
    DATA' = DATA ++ flat_map (records_of name code r) before.
Proof.
unfold handle_page. destruct (get url) as [page|y] eqn:Hget.
- destruct (try_block fuel page code tick DATA) as [[D [u|y]]|] eqn:Htry;
    cbn [option_map]; [discriminate| |discriminate].
  intros H.
  assert (except_TimeoutException (D, Raise y) = (DATA', Raise x)) as Heq by congruence.
  assert (D = DATA' /\ y = x) as [-> ->]
    by (destruct y; cbn [except_TimeoutException] in Heq; inversion Heq; now split).
  apply try_block_output in Htry
    as [->|(text & r & name & l & processed & rest & _ & _ & _ & _ & Hc & Hl & HD
            & e & rest' & -> & He)];
    [now left|].
  right. exists page, name, r, processed, e, rest'. subst l. now repeat split.
- intros H. inversion H; subst. now left.
Qed.

End HarvesterMore.

Lemma records_carry_product_fields_witness :
  exists items,
    [Sample.relayed (Some "3"%string)] = [] ++ items /\
    Forall (fun it =>
              sku it = "A1"%string /\
              product_b (Sample.fixed_page "4.5" [Sample.recent; Sample.praise])
              = Some (product_name it) /\
              exists text,
                rating_b (Sample.fixed_page "4.5" [Sample.recent; Sample.praise])
                = Some text /\
                Sample.float_of_str text = Some (rating it) /\
                (rating it <? 5)%float = true) items.
Proof.
apply (records_carry_product_fields Sample.now Sample.strptime Sample.float_of_str
         (Sample.get (Sample.fixed_page "4.5" [Sample.recent; Sample.praise]))
         2 "https://shop/A1/feedbacks" "A1" 0 []
         [Sample.relayed (Some "3"%string)] (Return tt)
         (Sample.fixed_page "4.5" [Sample.recent; Sample.praise]));
  reflexivity.
Defined.

Lemma harvest_keeps_order_witness :
  handle_page Sample.now Sample.strptime Sample.float_of_str
              (Sample.get Scenario.growing_once)
              2 "https://shop/A1/feedbacks" "A1" 0 []
  = Some ([] ++ flat_map (records_of "Lamp" "A1" 4.5) [Sample.recent; Sample.bare],
          Return tt).
Proof.
apply (harvest_keeps_order Sample.now Sample.strptime Sample.float_of_str
         (Sample.get Scenario.growing_once)
         2 "https://shop/A1/feedbacks" "A1" 0 []
         Scenario.growing_once "4.5" 4.5%float "Lamp" [Sample.recent; Sample.bare]);
  try reflexivity.
readable.
Defined.

Lemma empty_class_stops_the_loop_witness :
  for_feedbacks "Lamp" "A1" 4.5 ([Sample.recent] ++ Scenario.classless :: [Sample.bare]) []
  = ([] ++ flat_map (records_of "Lamp" "A1" 4.5) [Sample.recent], Raise IndexError).
Proof.
apply (empty_class_stops_the_loop "Lamp" "A1" 4.5%float
         [Sample.recent] Scenario.classless [Sample.bare] []).
- readable.
- reflexivity.
Defined.

Lemma timeouts_inside_are_swallowed_witness :
  handle_page Sample.now Sample.strptime Sample.float_of_str
              (Sample.get Scenario.blank_page)
              2 "https://shop/A3/feedbacks" "A3" 0 [Sample.relayed None]
  = Some ([Sample.relayed None], Return tt) /\
  (Scenario.get_timeout "https://shop/A3/feedbacks" = Raise TimeoutException /\
   [Sample.relayed None] = [Sample.relayed None]).
Proof.
split.
- apply (proj1 (timeouts_inside_are_swallowed Sample.now Sample.strptime
                  Sample.float_of_str (Sample.get Scenario.blank_page)
                  2 "https://shop/A3/feedbacks" "A3" 0 [Sample.relayed None])
               Scenario.blank_page); reflexivity.
- apply (proj2 (timeouts_inside_are_swallowed Sample.now Sample.strptime
                  Sample.float_of_str Scenario.get_timeout
                  2 "https://shop/A3/feedbacks" "A3" 0 [Sample.relayed None])
               [Sample.relayed None]).
  reflexivity.
Defined.

Lemma dropped_iff_class_ends_in_five_witness :
  read_feedback "Lamp" "A1" 4.5 Sample.praise = Return None.
Proof.
apply (proj2 (dropped_iff_class_ends_in_five "Lamp" "A1" 4.5%float Sample.praise)).
exists "feedback__rating stars-"%string. reflexivity.
Defined.

Lemma failure_keeps_earlier_records_witness :
  handle_page Sample.now Sample.strptime Sample.float_of_str
              (Sample.get (Sample.fixed_page "4.5" [Sample.recent; Scenario.gone]))
              2 "https://shop/A1/feedbacks" "A1" 0 []
  = Some ([Sample.relayed (Some "3"%string)], Raise StaleElementReferenceException) /\
  ([Sample.relayed (Some "3"%string)] = [] \/
   exists page name r before e after,
     Sample.get (Sample.fixed_page "4.5" [Sample.recent; Scenario.gone])
                "https://shop/A1/feedbacks" = Return page /\
     collect_all_feedbacks Sample.now Sample.strptime 2 page TIME_DELTA 0
     = Some (Return (before ++ e :: after)) /\
     read_feedback name "A1" r e = Raise StaleElementReferenceException /\
     [Sample.relayed (Some "3"%string)]
     = [] ++ flat_map (records_of name "A1" r) before).
Proof.
split; [reflexivity|].
apply (failure_keeps_earlier_records Sample.now Sample.strptime Sample.float_of_str
         (Sample.get (Sample.fixed_page "4.5" [Sample.recent; Scenario.gone]))
         2 "https://shop/A1/feedbacks" "A1" 0 []
         [Sample.relayed (Some "3"%string)] StaleElementReferenceException).
reflexivity.
Defined.

(** * Properties of the message text *)

Section FormatFacts.

Variable str_of_float : float -> string.

#[local] Abbreviation format_item := (format_item str_of_float).

Lemma string_app_assoc (a b c : string) :
  ((a ++ b) ++ c = a ++ (b ++ c))%string.
Proof. induction a as [|x a IH]; simpl; [reflexivity | now rewrite IH]. Qed.

(** X10 (the text does not determine the record).  A record without
    author is rendered like the one whose author is the text None; and a
    slash inside the author is rendered like the separator, so that moving
    the part after it to the front of the product name gives the same
    text. *)
Theorem format_item_is_ambiguous name product code stars text r :
  format_item {| feedback_name := None;
                 product_name := product; sku := code; feedback_stars := stars;
                 feedback_text := text; rating := r |}
  = format_item {| feedback_name := Some "None"%string;
                   product_name := product; sku := code; feedback_stars := stars;
                   feedback_text := text; rating := r |} /\
  forall tail,
    format_item {| feedback_name := Some (name ++ "/" ++ tail)%string;
                   product_name := product; sku := code; feedback_stars := stars;
                   feedback_text := text; rating := r |}
    = format_item {| feedback_name := Some name;
                     product_name := (tail ++ "/" ++ product)%string;
                     sku := code; feedback_stars := stars;
                     feedback_text := text; rating := r |}.
Proof.
split; [reflexivity|]. intros tail. unfold format_item. cbn [feedback_name
  product_name sku feedback_stars feedback_text rating str_opt].
now rewrite !string_app_assoc.
Qed.

End FormatFacts.

(** * Further properties of the dispatcher *)

Section DispatcherMore.

Variable CHANNEL_ID : string.
Variable send_message : nat -> string -> send_answer.

#[local] Abbreviation for_messages := (for_messages CHANNEL_ID send_message).
#[local] Abbreviation sent_data := (sent_data CHANNEL_ID send_message).

(** The loop itself only sends and prints. *)
Lemma for_messages_actions DATA : forall calls acts ok,
  for_messages calls DATA = (acts, ok) ->
  Forall (fun a => match a with
                   | SendMessage _ _ | Print _ => True
                   | _ => False
                   end) acts.
Proof.
induction DATA as [|message rest IH]; intros calls acts ok H; simpl in H.
- inversion H; subst. constructor.
- destruct (send_message calls message) as [|error_code str_err|].
  + destruct (for_messages (S calls) rest) as [acts' ok'] eqn:Hrest.
    inversion H; subst. constructor; [exact I | exact (IH _ _ _ Hrest)].
  + destruct (for_messages (S calls) rest) as [acts' ok'] eqn:Hrest.
    inversion H; subst. constructor; [exact I|].
    apply Forall_app. split; [|exact (IH _ _ _ Hrest)].
    unfold on_api_error. destruct (error_code =? 429); repeat constructor.
  + inversion H; subst. repeat constructor.
Qed.

Lemma for_messages_completes DATA : forall calls,
  (forall i text, send_message i text <> OtherFailure) ->
  snd (for_messages calls DATA) = true.
Proof.
induction DATA as [|message rest IH]; intros calls Hok; simpl; trivial.
specialize (IH (S calls) Hok).
destruct (send_message calls message) as [|error_code str_err|] eqn:Hsend.
- destruct (for_messages (S calls) rest); exact IH.
- destruct (for_messages (S calls) rest); exact IH.
- now apply Hok in Hsend.
Qed.

(** X12 (best effort).  When no call of the channel fails with an
    exception other than [ApiTelegramException], every message of [DATA] is
    handed to the channel exactly once, in order, whatever the answers; the
    run then stops the bot and exits, and nothing happens after the exit. *)
Theorem delivery_is_best_effort DATA :
  (forall i text, send_message i text <> OtherFailure) ->
  sends (sent_data DATA) = DATA /\
  exists acts,
    sent_data DATA = acts ++ [StopPolling; LogInfo "Finished"; SysExit] /\
    ~ In SysExit acts.
Proof.
intros Hok. pose proof (for_messages_completes DATA 0 Hok) as Hdone.
unfold sent_data.
destruct (for_messages 0 DATA) as [acts ok] eqn:H. simpl in Hdone. subst ok.
destruct (for_messages_once CHANNEL_ID send_message DATA _ _ _ H)
  as (_ & _ & _ & Hall).
split.
- rewrite sends_app, (Hall eq_refl). simpl. now rewrite app_nil_r.
- exists acts. split; trivial.
  pose proof (for_messages_actions DATA _ _ _ H) as Hacts.
  rewrite Forall_forall in Hacts. intros Hin. exact (Hacts _ Hin).
Qed.

Lemma for_messages_abort pre message post : forall calls,
  (forall i text, (i < calls + length pre)%nat -> send_message i text <> OtherFailure) ->
  send_message (calls + length pre) message = OtherFailure ->
  exists acts,
    for_messages calls (pre ++ message :: post) = (acts, false) /\
    sends acts = pre ++ [message].
Proof.
induction pre as [|m pre IH]; intros calls Hok Hfail; simpl in *.
- rewrite Nat.add_0_r in Hfail. rewrite Hfail. eexists. split; reflexivity.
- assert (send_message calls m <> OtherFailure) as Hm by (apply Hok; lia).
  destruct (IH (S calls)) as (acts & Hrun & Hsends).
  + intros i text Hi. apply Hok. lia.
  + replace (S calls + length pre)%nat with (calls + S (length pre))%nat by lia.
    exact Hfail.
  + rewrite Hrun.
    destruct (send_message calls m) as [|error_code str_err|]; [| |congruence].
    * eexists. split; [reflexivity|]. simpl. now rewrite Hsends.
    * eexists. split; [reflexivity|].
      change (sends (SendMessage CHANNEL_ID m
                       :: on_api_error error_code str_err ++ acts))
        with (m :: sends (on_api_error error_code str_err ++ acts)).
      rewrite sends_app, (proj1 (on_api_error_silent error_code str_err)).
      simpl. now rewrite Hsends.
Qed.

(** X13 (uncaught failure).  When the call for some message fails with
    an exception other than [ApiTelegramException], the messages up to and
    including that one have been handed to the channel, those after it
    never are, and the bot is neither stopped nor the process exited by
    [stop_bot]. *)
Theorem uncaught_failure_aborts pre message post :
  (forall i text, (i < length pre)%nat -> send_message i text <> OtherFailure) ->
  send_message (length pre) message = OtherFailure ->
  sends (sent_data (pre ++ message :: post)) = pre ++ [message] /\
  ~ In StopPolling (sent_data (pre ++ message :: post)) /\
  ~ In SysExit (sent_data (pre ++ message :: post)).
Proof.
intros Hok Hfail.
destruct (for_messages_abort pre message post 0 Hok Hfail) as (acts & Hrun & Hsends).
pose proof (for_messages_actions _ _ _ _ Hrun) as Hacts.
rewrite Forall_forall in Hacts.
unfold sent_data. rewrite Hrun. split; [exact Hsends|].
split; intros Hin; exact (Hacts _ Hin).
Qed.

End DispatcherMore.

Lemma delivery_is_best_effort_witness :
  sends (sent_data "@reviews" Sample.limited_once ["first"; "second"]%string)
  = ["first"; "second"]%string /\
  exists acts,
    sent_data "@reviews" Sample.limited_once ["first"; "second"]%string
    = acts ++ [StopPolling; LogInfo "Finished"; SysExit] /\
    ~ In SysExit acts.
Proof.
apply (delivery_is_best_effort "@reviews" Sample.limited_once
                               ["first"; "second"]%string).
intros [|i] text; discriminate.
Defined.

Lemma uncaught_failure_aborts_witness :
  sends (sent_data "@reviews" Scenario.broken_at_second
                   (["first"%string] ++ "second"%string :: ["third"%string]))
  = ["first"%string] ++ ["second"%string] /\
  ~ In StopPolling (sent_data "@reviews" Scenario.broken_at_second
                              (["first"%string] ++ "second"%string :: ["third"%string])) /\
  ~ In SysExit (sent_data "@reviews" Scenario.broken_at_second
                          (["first"%string] ++ "second"%string :: ["third"%string])).
Proof.
apply (uncaught_failure_aborts "@reviews" Scenario.broken_at_second
                               ["first"%string] "second"%string ["third"%string]).
- intros [|i] text Hi; [discriminate | simpl in Hi; lia].
- reflexivity.
Defined.
